(** * Sherpa model parameters: a shallow embedding of
    [sherpa/models/parameter.py] and its verification.

    Python objects live in a store indexed by their identity; a reference
    to a parameter is an address into that store, so that links and
    composite expressions share the parameters they mention.  Floating
    point values are represented by exact rationals: comparisons and the
    arithmetic of the examples are exact, while rounding, infinities and
    NaN are outside the model. *)

From Stdlib Require Import QArith Qabs Qround Ascii String Lqa.
From stdpp Require Import gmap strings list pretty.

Local Open Scope string_scope.

(** ** Numbers *)

(** [SherpaFloat(x)] converts to a float64; on rationals it is the
    identity. *)
Definition SherpaFloat (x : Q) : Q := x.

(** Python's [x < y] and [x > y] on numbers. *)
Definition Qltb (x y : Q) : bool :=
  (Qnum x * Zpos (Qden y) <? Qnum y * Zpos (Qden x))%Z.
Definition Qgtb (x y : Q) : bool := Qltb y x.

(** [float(numpy.finfo(numpy.float32).max)], i.e. (2^24 - 1) * 2^104 and
    [float(numpy.finfo(numpy.float32).tiny)], i.e. 2^-126. *)
Definition hugeval : Q := inject_Z ((2 ^ 24 - 1) * 2 ^ 104).
Definition tinyval : Q := Qmake 1 (2 ^ 126).

(** [str(value)] of a number that is an integer prints its digits; other
    values are printed as a fraction (Python prints a decimal expansion
    there). *)
Definition py_str (x : Q) : string :=
  let r := Qred x in
  match Qden r with
  | xH => pretty (Qnum r)
  | d => pretty (Qnum r) ++ "/" ++ pretty (Zpos d)
  end.

(** ** Objects *)

Abbreviation addr := nat.

(** The class of an object together with the attributes its constructor
    writes before it delegates to [Parameter.__init__]: [value] for a
    constant, [arg] and [op], or [lhs], [rhs] and [op], for the operator
    nodes, [parts] for a bare [CompositeParameter]. *)
Inductive ParamClass :=
| PlainParameter
| CompositeBase (parts : list addr)
| ConstantParameter (value : Q)
| UnaryOpParameter (arg : addr) (op : Q -> Q)
| BinaryOpParameter (lhs rhs : addr) (op : Q -> Q -> Q).

(** [isinstance(p, CompositeParameter)]; also [hasattr(p, 'eval')]. *)
Definition is_composite (c : ParamClass) : bool :=
  match c with PlainParameter => false | _ => true end.

(** The [parts] tuple handed to [CompositeParameter.__init__]. *)
Definition parts_of (c : ParamClass) : list addr :=
  match c with
  | PlainParameter => []
  | CompositeBase ps => ps
  | ConstantParameter _ => []
  | UnaryOpParameter a _ => [a]
  | BinaryOpParameter l r _ => [l; r]
  end.

(** The attributes of a [Parameter] instance (the class name itself is a
    reserved word here). *)
Record ParameterObj := mkParameter {
  cls : ParamClass;
  modelname : string;
  name : string;
  fullname : string;
  _hard_min : Q;
  _hard_max : Q;
  units : string;
  _alwaysfrozen : bool;
  _frozen : bool;
  hidden : bool;
  _min : Q;
  _max : Q;
  _val : Q;
  _default_min : Q;
  _default_max : Q;
  _default_val : Q;
  _link : option addr;
  _guessed : bool;
  aliases : list string;
  (** [_NoNewAttributesAfterInit__initialized] *)
  initialized : bool
}.

(** An object as [__new__] leaves it: no attribute has been written yet.
    The numeric placeholders are never read before [__init__] writes
    them. *)
Definition blank (c : ParamClass) : ParameterObj :=
  mkParameter c "" "" "" 0 0 "" false false false 0 0 0 0 0 0 None false []
              false.

(** Attribute writes. *)
Definition with_modelname (s : string) (o : ParameterObj) : ParameterObj :=
  mkParameter (cls o) s (name o) (fullname o) (_hard_min o)
    (_hard_max o) (units o) (_alwaysfrozen o) (_frozen o) (hidden o) (_min o)
    (_max o) (_val o) (_default_min o) (_default_max o) (_default_val o)
    (_link o) (_guessed o) (aliases o) (initialized o).
Definition with_name (s : string) (o : ParameterObj) : ParameterObj :=
  mkParameter (cls o) (modelname o) s (fullname o) (_hard_min o)
    (_hard_max o) (units o) (_alwaysfrozen o) (_frozen o) (hidden o) (_min o)
    (_max o) (_val o) (_default_min o) (_default_max o) (_default_val o)
    (_link o) (_guessed o) (aliases o) (initialized o).
Definition with_fullname (s : string) (o : ParameterObj) : ParameterObj :=
  mkParameter (cls o) (modelname o) (name o) s (_hard_min o)
    (_hard_max o) (units o) (_alwaysfrozen o) (_frozen o) (hidden o) (_min o)
    (_max o) (_val o) (_default_min o) (_default_max o) (_default_val o)
    (_link o) (_guessed o) (aliases o) (initialized o).
Definition with_hard_min (x : Q) (o : ParameterObj) : ParameterObj :=
  mkParameter (cls o) (modelname o) (name o) (fullname o) x
    (_hard_max o) (units o) (_alwaysfrozen o) (_frozen o) (hidden o) (_min o)
    (_max o) (_val o) (_default_min o) (_default_max o) (_default_val o)
    (_link o) (_guessed o) (aliases o) (initialized o).
Definition with_hard_max (x : Q) (o : ParameterObj) : ParameterObj :=
  mkParameter (cls o) (modelname o) (name o) (fullname o) (_hard_min o)
    x (units o) (_alwaysfrozen o) (_frozen o) (hidden o) (_min o)
    (_max o) (_val o) (_default_min o) (_default_max o) (_default_val o)
    (_link o) (_guessed o) (aliases o) (initialized o).
Definition with_units (s : string) (o : ParameterObj) : ParameterObj :=
  mkParameter (cls o) (modelname o) (name o) (fullname o) (_hard_min o)
    (_hard_max o) s (_alwaysfrozen o) (_frozen o) (hidden o) (_min o)
    (_max o) (_val o) (_default_min o) (_default_max o) (_default_val o)
    (_link o) (_guessed o) (aliases o) (initialized o).
Definition with_alwaysfrozen (b : bool) (o : ParameterObj) : ParameterObj :=
  mkParameter (cls o) (modelname o) (name o) (fullname o) (_hard_min o)
    (_hard_max o) (units o) b (_frozen o) (hidden o) (_min o)
    (_max o) (_val o) (_default_min o) (_default_max o) (_default_val o)
    (_link o) (_guessed o) (aliases o) (initialized o).
Definition with_frozen (b : bool) (o : ParameterObj) : ParameterObj :=
  mkParameter (cls o) (modelname o) (name o) (fullname o) (_hard_min o)
    (_hard_max o) (units o) (_alwaysfrozen o) b (hidden o) (_min o)
    (_max o) (_val o) (_default_min o) (_default_max o) (_default_val o)
    (_link o) (_guessed o) (aliases o) (initialized o).
Definition with_hidden (b : bool) (o : ParameterObj) : ParameterObj :=
  mkParameter (cls o) (modelname o) (name o) (fullname o) (_hard_min o)
    (_hard_max o) (units o) (_alwaysfrozen o) (_frozen o) b (_min o)
    (_max o) (_val o) (_default_min o) (_default_max o) (_default_val o)
    (_link o) (_guessed o) (aliases o) (initialized o).
Definition with_min (x : Q) (o : ParameterObj) : ParameterObj :=
  mkParameter (cls o) (modelname o) (name o) (fullname o) (_hard_min o)
    (_hard_max o) (units o) (_alwaysfrozen o) (_frozen o) (hidden o) x
    (_max o) (_val o) (_default_min o) (_default_max o) (_default_val o)
    (_link o) (_guessed o) (aliases o) (initialized o).
Definition with_max (x : Q) (o : ParameterObj) : ParameterObj :=
  mkParameter (cls o) (modelname o) (name o) (fullname o) (_hard_min o)
    (_hard_max o) (units o) (_alwaysfrozen o) (_frozen o) (hidden o) (_min o)
    x (_val o) (_default_min o) (_default_max o) (_default_val o)
    (_link o) (_guessed o) (aliases o) (initialized o).
Definition with_val (x : Q) (o : ParameterObj) : ParameterObj :=
  mkParameter (cls o) (modelname o) (name o) (fullname o) (_hard_min o)
    (_hard_max o) (units o) (_alwaysfrozen o) (_frozen o) (hidden o) (_min o)
    (_max o) x (_default_min o) (_default_max o) (_default_val o)
    (_link o) (_guessed o) (aliases o) (initialized o).
Definition with_default_min (x : Q) (o : ParameterObj) : ParameterObj :=
  mkParameter (cls o) (modelname o) (name o) (fullname o) (_hard_min o)
    (_hard_max o) (units o) (_alwaysfrozen o) (_frozen o) (hidden o) (_min o)
    (_max o) (_val o) x (_default_max o) (_default_val o)
    (_link o) (_guessed o) (aliases o) (initialized o).
Definition with_default_max (x : Q) (o : ParameterObj) : ParameterObj :=
  mkParameter (cls o) (modelname o) (name o) (fullname o) (_hard_min o)
    (_hard_max o) (units o) (_alwaysfrozen o) (_frozen o) (hidden o) (_min o)
    (_max o) (_val o) (_default_min o) x (_default_val o)
    (_link o) (_guessed o) (aliases o) (initialized o).
Definition with_default_val (x : Q) (o : ParameterObj) : ParameterObj :=
  mkParameter (cls o) (modelname o) (name o) (fullname o) (_hard_min o)
    (_hard_max o) (units o) (_alwaysfrozen o) (_frozen o) (hidden o) (_min o)
    (_max o) (_val o) (_default_min o) (_default_max o) x
    (_link o) (_guessed o) (aliases o) (initialized o).
Definition with_link (l : option addr) (o : ParameterObj) : ParameterObj :=
  mkParameter (cls o) (modelname o) (name o) (fullname o) (_hard_min o)
    (_hard_max o) (units o) (_alwaysfrozen o) (_frozen o) (hidden o) (_min o)
    (_max o) (_val o) (_default_min o) (_default_max o) (_default_val o)
    l (_guessed o) (aliases o) (initialized o).
Definition with_guessed (b : bool) (o : ParameterObj) : ParameterObj :=
  mkParameter (cls o) (modelname o) (name o) (fullname o) (_hard_min o)
    (_hard_max o) (units o) (_alwaysfrozen o) (_frozen o) (hidden o) (_min o)
    (_max o) (_val o) (_default_min o) (_default_max o) (_default_val o)
    (_link o) b (aliases o) (initialized o).
Definition with_aliases (l : list string) (o : ParameterObj) : ParameterObj :=
  mkParameter (cls o) (modelname o) (name o) (fullname o) (_hard_min o)
    (_hard_max o) (units o) (_alwaysfrozen o) (_frozen o) (hidden o) (_min o)
    (_max o) (_val o) (_default_min o) (_default_max o) (_default_val o)
    (_link o) (_guessed o) l (initialized o).
Definition with_initialized (b : bool) (o : ParameterObj) : ParameterObj :=
  mkParameter (cls o) (modelname o) (name o) (fullname o) (_hard_min o)
    (_hard_max o) (units o) (_alwaysfrozen o) (_frozen o) (hidden o) (_min o)
    (_max o) (_val o) (_default_min o) (_default_max o) (_default_val o)
    (_link o) (_guessed o) (aliases o) b.

(** ** Exceptions, warnings and the store *)

Inductive errarg := AStr (s : string) | ANum (x : Q).

(** [ParameterErr(reason, *args)] of [sherpa.utils.err], and the builtin
    exceptions the module can raise. *)
Inductive exn :=
| ParameterErr (reason : string) (args : list errarg)
| AssertionError
| NotImplementedError
| AttributeError
| TypeError.

(** The two messages the limit setter logs: the parameter's [fullname]
    and the value it was reset to. *)
Inductive warning_msg :=
| LessThanNewMinimum (fullname : string) (v : Q)
| GreaterThanNewMaximum (fullname : string) (v : Q).

Abbreviation store := (gmap nat ParameterObj).

Record State := mkState {
  heap : store;
  next : addr;
  log : list warning_msg
}.

(** What a Python value handed to a setter can be. *)
Inductive pyval :=
| PyNone
| PyNum (x : Q)
| PyPar (a : addr).

(** *** Reading the store

    Property getters do not write.  [Diverge] is the outcome of a
    recursion or loop that exhausts its fuel, [Dangling] that of following
    an address that holds no object (which no Python reference does). *)
Inductive result (A : Type) :=
| Val (a : A)
| Exc (e : exn)
| Diverge
| Dangling.
Arguments Val {A} a.
Arguments Exc {A} e.
Arguments Diverge {A}.
Arguments Dangling {A}.

Definition rbind {A B} (m : result A) (k : A -> result B) : result B :=
  match m with
  | Val a => k a
  | Exc e => Exc e
  | Diverge => Diverge
  | Dangling => Dangling
  end.

Declare Scope result_scope.
Delimit Scope result_scope with R.
Notation "x <- m ;; k" := (rbind m (fun x => k))
  (at level 100, m at next level, k at level 200, right associativity)
  : result_scope.

Definition deref (h : store) (a : addr) : result ParameterObj :=
  match h !! a with
  | Some o => Val o
  | None => Dangling
  end.

Definition edge (o : ParameterObj) (which : string) (bound : Q) : exn :=
  ParameterErr "edge" [AStr (fullname o); AStr which; ANum bound].

(** The [eval] methods, over the value getter of the parts; a plain
    [Parameter] has no such method. *)
Definition eval_with (getval : addr -> result Q) (c : ParamClass)
  : result Q :=
  (match c with
   | PlainParameter => Exc AttributeError
   | CompositeBase _ => Exc NotImplementedError
   | ConstantParameter value => Val value
   | UnaryOpParameter arg op => x <- getval arg ;; Val (op x)
   | BinaryOpParameter lhs rhs op =>
       x <- getval lhs ;; y <- getval rhs ;; Val (op x y)
   end)%R.

(** [Parameter._get_val] *)
Fixpoint _get_val (fuel : nat) (h : store) (self : addr) : result Q :=
  match fuel with
  | O => Diverge
  | S n =>
      (o <- deref h self ;;
       if is_composite (cls o) then eval_with (_get_val n h) (cls o)
       else match _link o with
            | None => Val (_val o)
            | Some l =>
                val <- _get_val n h l ;;
                if Qltb val (_min o) then Exc (edge o "minimum" (_min o))
                else if Qgtb val (_max o) then Exc (edge o "maximum" (_max o))
                else Val val
            end)%R
  end.

(** [c.eval()] for a composite [c]. *)
Definition eval (fuel : nat) (h : store) (self : addr) : result Q :=
  (o <- deref h self ;; eval_with (_get_val fuel h) (cls o))%R.

(** [Parameter._get_default_val] *)
Fixpoint _get_default_val (fuel : nat) (h : store) (self : addr)
  : result Q :=
  match fuel with
  | O => Diverge
  | S n =>
      (o <- deref h self ;;
       if is_composite (cls o) then eval_with (_get_val n h) (cls o)
       else match _link o with
            | Some l => _get_default_val n h l
            | None => Val (_default_val o)
            end)%R
  end.

(** The loop of [CompositeParameter._get_parts] over [self.parts], with
    the recursive call on composite parts passed as [rec]. *)
Fixpoint parts_loop (rec : addr -> result (list addr)) (h : store)
    (self : addr) (ps : list addr) (parts : list addr)
  : result (list addr) :=
  match ps with
  | [] => Val parts
  | p :: ps' =>
      if decide (p = self) then Exc AssertionError
      else
        (o <- deref h p ;;
         if is_composite (cls o)
         then sub <- rec p ;; parts_loop rec h self ps' (parts ++ [p] ++ sub)
         else parts_loop rec h self ps' (parts ++ [p]))%R
  end.

(** [CompositeParameter._get_parts] *)
Fixpoint _get_parts (fuel : nat) (h : store) (self : addr)
  : result (list addr) :=
  match fuel with
  | O => Diverge
  | S n =>
      (o <- deref h self ;;
       parts_loop (_get_parts n h) h self (parts_of (cls o)) [])%R
  end.

(** [list(iter(self))]: [Parameter.__iter__] yields the parameter itself,
    [CompositeParameter.__iter__] the flattened parts. *)
Definition __iter__ (fuel : nat) (h : store) (self : addr)
  : result (list addr) :=
  (o <- deref h self ;;
   if is_composite (cls o) then _get_parts fuel h self else Val [self])%R.

(** [x in container]: membership by identity among the iterated
    objects. *)
Definition contains (fuel : nat) (h : store) (x container : addr)
  : result bool :=
  (l <- __iter__ fuel h container ;; Val (bool_decide (x ∈ l)))%R.

(** The [while isinstance(ll, Parameter)] loop of [_set_link]; [n] bounds
    the number of iterations. *)
Fixpoint link_walk (n fuel : nat) (h : store) (self : addr)
    (ll : option addr) (cycle : bool) : result bool :=
  match ll with
  | None => Val cycle
  | Some a =>
      match n with
      | O => Diverge
      | S n' =>
          (hit <- (if decide (a = self) then Val true
                   else contains fuel h self a) ;;
           o <- deref h a ;;
           link_walk n' fuel h self (_link o) (if hit then true else cycle))%R
      end
  end.

(** [Parameter._get_frozen] *)
Definition _get_frozen (h : store) (self : addr) : result bool :=
  (o <- deref h self ;;
   match _link o with
   | Some _ => Val true
   | None => Val (_frozen o)
   end)%R.

(** *** Writing the store *)

Inductive outcome (A : Type) :=
| Ok (a : A) (s : State)
| Raise (e : exn) (s : State)
| Loops
| Stuck.
Arguments Ok {A} a s.
Arguments Raise {A} e s.
Arguments Loops {A}.
Arguments Stuck {A}.

Definition M (A : Type) : Type := State -> outcome A.

Definition ret {A} (a : A) : M A := fun s => Ok a s.
Definition raise {A} (e : exn) : M A := fun s => Raise e s.
Definition bind {A B} (m : M A) (k : A -> M B) : M B :=
  fun s =>
    match m s with
    | Ok a s' => k a s'
    | Raise e s' => Raise e s'
    | Loops => Loops
    | Stuck => Stuck
    end.

Declare Scope monad_scope.
Delimit Scope monad_scope with M.
Notation "x <- m ;; k" := (bind m (fun x => k))
  (at level 100, m at next level, k at level 200, right associativity)
  : monad_scope.
Notation "m ;; k" := (bind m (fun _ => k))
  (at level 100, k at level 200, right associativity) : monad_scope.

Definition read {A} (r : store -> result A) : M A :=
  fun s =>
    match r (heap s) with
    | Val a => Ok a s
    | Exc e => Raise e s
    | Diverge => Loops
    | Dangling => Stuck
    end.

Definition get_obj (self : addr) : M ParameterObj :=
  read (fun h => deref h self).

(** [setattr(self, ..., ...)] *)
Definition update (self : addr) (f : ParameterObj -> ParameterObj) : M unit :=
  fun s =>
    match heap s !! self with
    | Some o => Ok tt (mkState (<[self := f o]> (heap s)) (next s) (log s))
    | None => Stuck
    end.

(** [warning(msg)] *)
Definition warn (w : warning_msg) : M unit :=
  fun s => Ok tt (mkState (heap s) (next s) (log s ++ [w])).

(** [cls.__new__]: a new object with a new identity. *)
Definition alloc (c : ParamClass) : M addr :=
  fun s =>
    Ok (next s) (mkState (<[next s := blank c]> (heap s)) (S (next s)) (log s)).

(** ** The setters and methods of [Parameter] *)

(** [Parameter._set_link].  The assignment [link.link = None] of the
    long-cycle branch re-enters this setter with [None], which only
    stores. *)
Definition _set_link (fuel : nat) (self : addr) (link : pyval) : M unit :=
  (match link with
   | PyNone => update self (with_link None)
   | PyNum _ =>
       o <- get_obj self ;;
       if _alwaysfrozen o
       then raise (ParameterErr "frozennolink" [AStr (fullname o)])
       else raise (ParameterErr "notlink" [])
   | PyPar l =>
       o <- get_obj self ;;
       if _alwaysfrozen o
       then raise (ParameterErr "frozennolink" [AStr (fullname o)])
       else
         short <- read (fun h => contains fuel h self l) ;;
         if (short : bool) then raise (ParameterErr "linkcycle" [])
         else
           cycle <- read (fun h => link_walk fuel fuel h self (Some l) false) ;;
           (if (cycle : bool) then update l (with_link None) else ret tt) ;;
           update self (with_link (Some l))
   end)%M.

(** [Parameter._set_val]; [SherpaFloat(None)] is a [TypeError]. *)
Definition _set_val (fuel : nat) (self : addr) (val : pyval) : M unit :=
  (match val with
   | PyPar l => _set_link fuel self (PyPar l)
   | PyNone => _set_link fuel self PyNone ;; raise TypeError
   | PyNum x =>
       _set_link fuel self PyNone ;;
       let val := SherpaFloat x in
       o <- get_obj self ;;
       if Qltb val (_min o) then raise (edge o "minimum" (_min o))
       else if Qgtb val (_max o) then raise (edge o "maximum" (_max o))
       else update self (with_val val) ;;
            update self (with_default_val val)
   end)%M.

(** [Parameter._set_default_val] *)
Definition _set_default_val (fuel : nat) (self : addr) (default_val : pyval)
  : M unit :=
  (match default_val with
   | PyPar l => _set_link fuel self (PyPar l)
   | PyNone => _set_link fuel self PyNone ;; raise TypeError
   | PyNum x =>
       _set_link fuel self PyNone ;;
       let default_val := SherpaFloat x in
       o <- get_obj self ;;
       if Qltb default_val (_min o) then raise (edge o "minimum" (_min o))
       else if Qgtb default_val (_max o)
       then raise (edge o "maximum" (_max o))
       else update self (with_default_val default_val)
   end)%M.

(** The four attribute names [_make_set_limit] is instantiated with. *)
Inductive limit_name := L_min | L_max | L_default_min | L_default_max.

Definition setattr_limit (name : limit_name) (val : Q)
  : ParameterObj -> ParameterObj :=
  match name with
  | L_min => with_min val
  | L_max => with_max val
  | L_default_min => with_default_min val
  | L_default_max => with_default_max val
  end.

(** [_make_set_limit(name)] *)
Definition _set_limit (fuel : nat) (name : limit_name) (self : addr) (v : Q)
  : M unit :=
  (let val := SherpaFloat v in
   o <- get_obj self ;;
   if Qltb val (_hard_min o)
   then raise (edge o "hard minimum" (_hard_min o))
   else if Qgtb val (_hard_max o)
   then raise (edge o "hard maximum" (_hard_max o))
   else
     (if initialized o then
        (match name with
         | L_min =>
             cur <- read (fun h => _get_val fuel h self) ;;
             if Qgtb val cur then
               _set_val fuel self (PyNum val) ;;
               o' <- get_obj self ;;
               now <- read (fun h => _get_val fuel h self) ;;
               warn (LessThanNewMinimum (fullname o') now)
             else ret tt
         | _ => ret tt
         end) ;;
        (match name with
         | L_max =>
             cur <- read (fun h => _get_val fuel h self) ;;
             if Qltb val cur then
               _set_val fuel self (PyNum val) ;;
               o' <- get_obj self ;;
               now <- read (fun h => _get_val fuel h self) ;;
               warn (GreaterThanNewMaximum (fullname o') now)
             else ret tt
         | _ => ret tt
         end)
      else ret tt) ;;
     update self (setattr_limit name val))%M.

(** [Parameter._set_frozen] *)
Definition _set_frozen (self : addr) (val : bool) : M unit :=
  (o <- get_obj self ;;
   if _alwaysfrozen o && negb val
   then raise (ParameterErr "alwaysfrozen" [AStr (fullname o)])
   else update self (with_frozen val))%M.

Definition freeze (self : addr) : M unit := _set_frozen self true.
Definition thaw (self : addr) : M unit := _set_frozen self false.
Definition unlink (fuel : nat) (self : addr) : M unit :=
  _set_link fuel self PyNone.

(** [Parameter.reset] *)
Definition Parameter_reset (fuel : nat) (self : addr) : M unit :=
  (o <- get_obj self ;;
   (if _guessed o then
      update self (fun o => with_min (_default_min o) o) ;;
      update self (fun o => with_max (_default_max o) o) ;;
      update self (with_guessed false)
    else ret tt) ;;
   d <- read (fun h => _get_default_val fuel h self) ;;
   update self (with_val d))%M.

(** [if x is not None and cond(x, attr): setter(x)] *)
Definition when_given {A} (arg : option A) (cond : A -> ParameterObj -> bool)
    (self : addr) (k : A -> M unit) : M unit :=
  match arg with
  | None => ret tt
  | Some x =>
      (o <- get_obj self ;; if cond x o then k x else ret tt)%M
  end.

Definition always {A} (_ : A) (_ : ParameterObj) : bool := true.

(** [Parameter.set]; an argument that is [None] is left out. *)
Definition Parameter_set (fuel : nat) (self : addr)
    (val : pyval) (min max : option Q) (frozen : option bool)
    (default_val : pyval) (default_min default_max : option Q) : M unit :=
  (when_given max (fun x o => Qgtb x (_max o)) self
     (_set_limit fuel L_max self) ;;
   when_given default_max (fun x o => Qgtb x (_default_max o)) self
     (_set_limit fuel L_default_max self) ;;
   when_given min (fun x o => Qltb x (_min o)) self
     (_set_limit fuel L_min self) ;;
   when_given default_min (fun x o => Qltb x (_default_min o)) self
     (_set_limit fuel L_default_min self) ;;
   (match val with PyNone => ret tt | _ => _set_val fuel self val end) ;;
   (match default_val with
    | PyNone => ret tt
    | _ => _set_default_val fuel self default_val
    end) ;;
   (match min with Some x => _set_limit fuel L_min self x | None => ret tt end) ;;
   (match max with Some x => _set_limit fuel L_max self x | None => ret tt end) ;;
   (match default_min with
    | Some x => _set_limit fuel L_default_min self x
    | None => ret tt
    end) ;;
   (match default_max with
    | Some x => _set_limit fuel L_default_max self x
    | None => ret tt
    end) ;;
   (match frozen with Some b => _set_frozen self b | None => ret tt end))%M.

(** [a.lower()] on ASCII letters. *)
Definition lower_ascii (c : ascii) : ascii :=
  let n := nat_of_ascii c in
  if (65 <=? n)%nat && (n <=? 90)%nat then ascii_of_nat (n + 32) else c.
Fixpoint lower (s : string) : string :=
  match s with
  | EmptyString => EmptyString
  | String c s' => String (lower_ascii c) (lower s')
  end.

(** [Parameter.__init__]; the last line is
    [NoNewAttributesAfterInit.__init__], which sets the flag that the limit
    setters test. *)
Definition Parameter__init__ (fuel : nat) (self : addr)
    (modelname name : string) (val : pyval) (min max hard_min hard_max : Q)
    (units : string) (frozen alwaysfrozen hidden : bool)
    (aliases : option (list string)) : M unit :=
  (update self (with_modelname modelname) ;;
   update self (with_name name) ;;
   update self (with_fullname (modelname ++ "." ++ name)) ;;
   update self (with_hard_min (SherpaFloat hard_min)) ;;
   update self (with_hard_max (SherpaFloat hard_max)) ;;
   update self (with_units units) ;;
   update self (with_alwaysfrozen alwaysfrozen) ;;
   (if alwaysfrozen then update self (with_frozen true)
    else update self (with_frozen frozen)) ;;
   update self (with_hidden hidden) ;;
   _set_limit fuel L_min self min ;;
   _set_limit fuel L_max self max ;;
   _set_val fuel self val ;;
   _set_limit fuel L_default_min self min ;;
   _set_limit fuel L_default_max self max ;;
   _set_default_val fuel self val ;;
   _set_link fuel self PyNone ;;
   update self (with_guessed false) ;;
   update self (with_aliases
                  (match aliases with
                   | Some l => map lower l
                   | None => []
                   end)) ;;
   update self (with_initialized true))%M.

(** [Parameter(modelname, name, val, min, max, hard_min, hard_max, units,
    frozen, alwaysfrozen, hidden, aliases)] *)
Definition new_Parameter (fuel : nat) (modelname name : string) (val : pyval)
    (min max hard_min hard_max : Q) (units : string)
    (frozen alwaysfrozen hidden : bool) (aliases : option (list string))
  : M addr :=
  (self <- alloc PlainParameter ;;
   Parameter__init__ fuel self modelname name val min max hard_min hard_max
     units frozen alwaysfrozen hidden aliases ;;
   ret self)%M.

(** [Parameter(modelname, name, val, min=min, max=max)], the other
    arguments at their defaults. *)
Definition new_Parameter_minmax (fuel : nat) (modelname name : string)
    (val min max : Q) : M addr :=
  new_Parameter fuel modelname name (PyNum val) min max (- hugeval) hugeval
    "" false false false None.

(** [Parameter(modelname, name, val)] *)
Definition new_Parameter_default (fuel : nat) (modelname name : string)
    (val : Q) : M addr :=
  new_Parameter_minmax fuel modelname name val (- hugeval) hugeval.

(** ** Composite parameters *)

(** [CompositeParameter.__init__]; [self.parts] is held by the class of
    the object. *)
Definition CompositeParameter__init__ (fuel : nat) (self : addr)
    (name : string) : M unit :=
  (Parameter__init__ fuel self "" name (PyNum 0) (- hugeval) hugeval
     (- hugeval) hugeval "" false false false None ;;
   update self (with_fullname name))%M.

(** [ConstantParameter(value)] *)
Definition new_ConstantParameter (fuel : nat) (value : Q) : M addr :=
  (self <- alloc (ConstantParameter (SherpaFloat value)) ;;
   CompositeParameter__init__ fuel self (py_str value) ;;
   ret self)%M.

(** [UnaryOpParameter(arg, op, opstr)] *)
Definition new_UnaryOpParameter (fuel : nat) (arg : addr) (op : Q -> Q)
    (opstr : string) : M addr :=
  (self <- alloc (UnaryOpParameter arg op) ;;
   a <- get_obj arg ;;
   CompositeParameter__init__ fuel self (opstr ++ "(" ++ fullname a ++ ")") ;;
   ret self)%M.

(** [BinaryOpParameter.wrapobj] *)
Definition wrapobj (fuel : nat) (obj : pyval) : M addr :=
  match obj with
  | PyPar a => ret a
  | PyNum x => new_ConstantParameter fuel x
  | PyNone => raise TypeError
  end.

(** [BinaryOpParameter(lhs, rhs, op, opstr)]; the node gets its identity
    once both sides are wrapped. *)
Definition new_BinaryOpParameter (fuel : nat) (lhs rhs : pyval)
    (op : Q -> Q -> Q) (opstr : string) : M addr :=
  (l <- wrapobj fuel lhs ;;
   r <- wrapobj fuel rhs ;;
   self <- alloc (BinaryOpParameter l r op) ;;
   lo <- get_obj l ;;
   ro <- get_obj r ;;
   CompositeParameter__init__ fuel self
     ("(" ++ fullname lo ++ " " ++ opstr ++ " " ++ fullname ro ++ ")") ;;
   ret self)%M.

(** The numpy functions the operators are bound to, on rationals. *)
Definition numpy_floor_divide (x y : Q) : Q := inject_Z (Qfloor (x / y)).
Definition numpy_remainder (x y : Q) : Q := x - y * numpy_floor_divide x y.

(** [_make_unop] and [_make_binop], and the operator methods built with
    them ([__pow__] is left out: powers of rationals are not rational). *)
Definition _make_unop (op : Q -> Q) (opstr : string) (fuel : nat)
    (self : addr) : M addr :=
  new_UnaryOpParameter fuel self op opstr.
Definition _make_binop_func (op : Q -> Q -> Q) (opstr : string) (fuel : nat)
    (self : addr) (rhs : pyval) : M addr :=
  new_BinaryOpParameter fuel (PyPar self) rhs op opstr.
Definition _make_binop_rfunc (op : Q -> Q -> Q) (opstr : string) (fuel : nat)
    (self : addr) (lhs : pyval) : M addr :=
  new_BinaryOpParameter fuel lhs (PyPar self) op opstr.

Definition __neg__ := _make_unop Qopp "-".
Definition __abs__ := _make_unop Qabs "abs".
Definition __add__ := _make_binop_func Qplus "+".
Definition __radd__ := _make_binop_rfunc Qplus "+".
Definition __sub__ := _make_binop_func Qminus "-".
Definition __rsub__ := _make_binop_rfunc Qminus "-".
Definition __mul__ := _make_binop_func Qmult "*".
Definition __rmul__ := _make_binop_rfunc Qmult "*".
Definition __div__ := _make_binop_func Qdiv "/".
Definition __rdiv__ := _make_binop_rfunc Qdiv "/".
Definition __truediv__ := _make_binop_func Qdiv "/".
Definition __rtruediv__ := _make_binop_rfunc Qdiv "/".
Definition __floordiv__ := _make_binop_func numpy_floor_divide "//".
Definition __rfloordiv__ := _make_binop_rfunc numpy_floor_divide "//".
Definition __mod__ := _make_binop_func numpy_remainder "%".
Definition __rmod__ := _make_binop_rfunc numpy_remainder "%".

(** The empty session. *)
Definition init_state : State := mkState ∅ 0 [].

(** * The vocabulary of the properties

    Scripts of operations, invariants and the scenarios of the
    specification; the statements below are written with them. *)

(** [put s a o]: the state [s] with the object at [a] replaced by [o]. *)
Definition put (s : State) (a : addr) (o : ParameterObj) : State :=
  mkState (<[a := o]> (heap s)) (next s) (log s).

(** The recursive readers and the setters stay folded under [simpl]; they
    are unfolded by the equations proved for them. *)
Arguments _get_val : simpl never.
Arguments _get_default_val : simpl never.
Arguments _get_parts : simpl never.
Arguments link_walk : simpl never.
Arguments _set_link : simpl never.
Arguments _set_val : simpl never.
Arguments _set_default_val : simpl never.
Arguments _set_limit : simpl never.
Arguments _set_frozen : simpl never.
Arguments Parameter_reset : simpl never.
Arguments Parameter__init__ : simpl never.
Arguments hugeval : simpl never.

(** Whether the auto-repair of the limit setter fires for the attribute
    [name], the new limit [v] and the current value [cur], and the message
    it then logs. *)
Definition repair_fires (name : limit_name) (v cur : Q) : bool :=
  match name with
  | L_min => Qgtb v cur
  | L_max => Qltb v cur
  | _ => false
  end.

Definition repair_warning (name : limit_name) (fullname : string) (v : Q)
  : list warning_msg :=
  match name with
  | L_min => [LessThanNewMinimum fullname v]
  | L_max => [GreaterThanNewMaximum fullname v]
  | _ => []
  end.

(** The object after a repairing limit assignment. *)
Definition repaired (name : limit_name) (v : Q) (o : ParameterObj)
  : ParameterObj :=
  setattr_limit name v (with_default_val v (with_val v (with_link None o))).

(** The object [Parameter.__init__] builds from numeric arguments. *)
Definition constructed (o0 : ParameterObj) (modelname name : string)
    (val min max hard_min hard_max : Q) (units : string)
    (frozen alwaysfrozen hidden : bool) (aliases : option (list string))
  : ParameterObj :=
  mkParameter (cls o0) modelname name (modelname ++ "." ++ name)
    hard_min hard_max units alwaysfrozen
    (if alwaysfrozen then true else frozen) hidden
    min max val min max val None false
    (match aliases with Some l => map lower l | None => [] end) true.

(** What the constructor checks of numeric arguments. *)
Definition init_checks (val min max hard_min hard_max : Q) : Prop :=
  (hard_min <= min /\ min <= hard_max /\
   hard_min <= max /\ max <= hard_max /\
   min <= val /\ val <= max)%Q.

(** Run the steps of a script in order; the first exception ends it. *)
Fixpoint run {Op : Type} (step : Op -> M unit) (ops : list Op) : M unit :=
  match ops with
  | [] => ret tt
  | op :: rest => (step op ;; run step rest)%M
  end.



(** [hard_min <= min <= val <= max <= hard_max] on the stored fields. *)
Definition bound_invariant (o : ParameterObj) : Prop :=
  (_hard_min o <= _min o /\ _min o <= _val o /\
   _val o <= _max o /\ _max o <= _hard_max o)%Q.



(** The state a computation leaves, whether it returns or raises. *)
Definition state_after {A} (m : M A) (s : State) : State :=
  match m s with
  | Ok _ s' => s'
  | Raise _ s' => s'
  | _ => s
  end.

(** The operations of a session on one parameter, all with numeric
    arguments: the six assignments, [set] and [reset]. *)
Inductive operation :=
| OpVal (x : Q)
| OpMin (x : Q)
| OpMax (x : Q)
| OpDefaultVal (x : Q)
| OpDefaultMin (x : Q)
| OpDefaultMax (x : Q)
| OpSet (val min max : option Q) (frozen : option bool)
        (default_val default_min default_max : option Q)
| OpReset.

Definition opt_num (v : option Q) : pyval :=
  match v with
  | Some x => PyNum x
  | None => PyNone
  end.

Definition perform (fuel : nat) (self : addr) (op : operation) : M unit :=
  match op with
  | OpVal x => _set_val fuel self (PyNum x)
  | OpMin x => _set_limit fuel L_min self x
  | OpMax x => _set_limit fuel L_max self x
  | OpDefaultVal x => _set_default_val fuel self (PyNum x)
  | OpDefaultMin x => _set_limit fuel L_default_min self x
  | OpDefaultMax x => _set_limit fuel L_default_max self x
  | OpSet val min max frozen default_val default_min default_max =>
      Parameter_set fuel self (opt_num val) min max frozen
        (opt_num default_val) default_min default_max
  | OpReset => Parameter_reset fuel self
  end.





(** A session: [p = Parameter("m", "p", 5, min=0, max=10)], then the
    operations [ops] on [p]. *)
Definition session (fuel : nat) (ops : list operation) : M unit :=
  (p <- new_Parameter_minmax fuel "m" "p" 5 0 10 ;;
   run (perform fuel p) ops)%M.

(** [a = Parameter("m", "a", 2)], [b = Parameter("m", "b", 1, min=0,
    max=20)], [b.link = 10 - a]; the addresses are [a = 0], [b = 1], the
    constant [10] at 2 and the difference at 3. *)
Definition linked_pair (fuel : nat) : M unit :=
  (a <- new_Parameter_default fuel "m" "a" 2 ;;
   b <- new_Parameter_minmax fuel "m" "b" 1 0 20 ;;
   d <- __rsub__ fuel a (PyNum 10) ;;
   _set_link fuel b (PyPar d))%M.

(** The state after [linked_pair], with fuel for the reads through the
    link. *)
Definition linked_state : State := state_after (linked_pair 3) init_state.

(** [p = Parameter("m", "p", 5, min=0, max=10)] *)
Definition p_5_0_10 : ParameterObj :=
  constructed (blank PlainParameter) "m" "p" 5 0 10 (- hugeval) hugeval
    "" false false false None.

(** [b] of [linked_pair]: linked to the difference at address 3. *)
Definition b_linked : ParameterObj :=
  with_link (Some 3%nat)
    (constructed (blank PlainParameter) "m" "b" 1 0 20 (- hugeval) hugeval
       "" false false false None).


(** [e = 2 * p + 3] for the parameter at [p]. *)
Definition two_p_plus_3 (fuel : nat) (p : addr) : M addr :=
  (t <- __rmul__ fuel p (PyNum 2) ;; __add__ fuel t (PyNum 3))%M.

(** [l] lists the parameters met by following [.link] from [a] up to the
    first parameter without a link. *)
Fixpoint chain_from (h : store) (a : addr) (l : list addr) : bool :=
  match l with
  | [] => false
  | x :: rest =>
      bool_decide (x = a) &&
      match h !! a with
      | None => false
      | Some o =>
          match rest with
          | [] => bool_decide (_link o = None)
          | b :: _ => bool_decide (_link o = Some b) && chain_from h b rest
          end
      end
  end.

(** The test [ll == self or self in ll] has a result. *)
Definition iterates (fuel : nat) (h : store) (self ll : addr) : Prop :=
  ll = self \/ exists parts, __iter__ fuel h ll = Val parts.

(** The test [ll == self or self in ll] is true. *)
Definition reaches (fuel : nat) (h : store) (self ll : addr) : Prop :=
  ll = self \/ exists parts, __iter__ fuel h ll = Val parts /\ self ∈ parts.

(** [A], [B], [C] with [A.link = B] and [B.link = C], at the addresses
    0, 1 and 2; [C] is always-frozen when [af] is set. *)
Definition abc_chain (fuel : nat) (af : bool) : M unit :=
  (a <- new_Parameter_default fuel "m" "a" 1 ;;
   b <- new_Parameter_default fuel "m" "b" 2 ;;
   c <- new_Parameter fuel "m" "c" (PyNum 3) (- hugeval) hugeval (- hugeval)
          hugeval "" false af false None ;;
   _set_link fuel a (PyPar b) ;;
   _set_link fuel b (PyPar c))%M.

(** [Parameter("m", nm, x, min=mi, max=ma)] as constructed. *)
Definition plain_obj_minmax (nm : string) (x mi ma : Q) : ParameterObj :=
  constructed (blank PlainParameter) "m" nm x mi ma (- hugeval) hugeval
    "" false false false None.

(** [Parameter("m", nm, x)] as constructed. *)
Definition plain_obj (nm : string) (x : Q) : ParameterObj :=
  constructed (blank PlainParameter) "m" nm x (- hugeval) hugeval (- hugeval)
    hugeval "" false false false None.

(** A composite node as its constructor leaves it. *)
Definition composite_obj (c : ParamClass) (name : string) : ParameterObj :=
  with_fullname name
    (constructed (blank c) "" name 0 (- hugeval) hugeval (- hugeval) hugeval
       "" false false false None).

(** [c = (p + q) / 2] *)
Definition half_sum (fuel : nat) (p q : addr) : M addr :=
  (t <- __add__ fuel p (PyPar q) ;; __truediv__ fuel t (PyNum 2))%M.

(** The store after [half_sum]: the sum at [next s], the constant at the
    address after it, the quotient after that. *)
Definition half_sum_store (s : State) (p q : addr) (op oq : ParameterObj)
  : store :=
  let t := next s in
  let k := S (next s) in
  let c := S (S (next s)) in
  let ot := composite_obj (BinaryOpParameter p q Qplus)
              ("(" ++ fullname op ++ " " ++ "+" ++ " " ++ fullname oq ++ ")") in
  let ok := composite_obj (ConstantParameter 2) (py_str 2) in
  <[c := composite_obj (BinaryOpParameter t k Qdiv)
           ("(" ++ fullname ot ++ " " ++ "/" ++ " " ++ fullname ok ++ ")")]>
    (<[k := ok]> (<[t := ot]> (heap s))).

(** [p = Parameter("m", "p", 2)], [q = Parameter("m", "q", 4)]. *)
Definition p_and_q (fuel : nat) : M unit :=
  (new_Parameter_default fuel "m" "p" 2 ;;
   new_Parameter_default fuel "m" "q" 4 ;; ret tt)%M.

(** ** Sessions over several parameters *)

(** What a session does to the parameter [self]: one of the numeric
    operations, an assignment to [val], [default_val] or [link] of any
    value, [unlink], [freeze], [thaw], or an assignment to [frozen]. *)
Inductive action :=
| ActOp (self : addr) (op : operation)
| ActVal (self : addr) (v : pyval)
| ActDefaultVal (self : addr) (v : pyval)
| ActLink (self : addr) (v : pyval)
| ActUnlink (self : addr)
| ActFreeze (self : addr)
| ActThaw (self : addr)
| ActFrozen (self : addr) (b : bool).

Definition act (fuel : nat) (a : action) : M unit :=
  match a with
  | ActOp self op => perform fuel self op
  | ActVal self v => _set_val fuel self v
  | ActDefaultVal self v => _set_default_val fuel self v
  | ActLink self v => _set_link fuel self v
  | ActUnlink self => unlink fuel self
  | ActFreeze self => freeze self
  | ActThaw self => thaw self
  | ActFrozen self b => _set_frozen self b
  end.

(** [m] keeps [I] whenever it returns or raises. *)
Definition keeps {A} (I : State -> Prop) (m : M A) : Prop :=
  forall s, I s ->
    match m s with
    | Ok _ s' => I s'
    | Raise _ s' => I s'
    | _ => True
    end.

(** The object at [p] satisfies [J]. *)
Definition obj_inv (p : addr) (J : ParameterObj -> Prop) (s : State) : Prop :=
  exists o, heap s !! p = Some o /\ J o.

(** [m] writes no object but the one at [q], and allocates nothing. *)
Definition only_at {A} (q : addr) (m : M A) : Prop :=
  forall s,
    match m s with
    | Ok _ s' | Raise _ s' =>
        (forall a, a <> q -> heap s' !! a = heap s !! a) /\ next s' = next s
    | _ => True
    end.

(** The attributes no setter or method writes after construction. *)
Definition fixed_attributes (o : ParameterObj) :=
  (cls o, modelname o, name o, fullname o, _hard_min o, _hard_max o,
   units o, _alwaysfrozen o, hidden o, aliases o, initialized o).

(** Every part of a composite was created before it and is in the
    store. *)
Definition parts_below (h : store) : Prop :=
  forall a o, h !! a = Some o ->
    Forall (fun p => (p < a)%nat /\ is_Some (h !! p)) (parts_of (cls o)).

(** [d = 3 - p] and [e = (-p) + 3]. *)
Definition both_differences (fuel : nat) (p : addr) (x : Q)
  : M (addr * addr) :=
  (d <- __rsub__ fuel p (PyNum x) ;;
   u <- __neg__ fuel p ;;
   e <- __add__ fuel u (PyNum x) ;;
   ret (d, e))%M.

(** ** Sessions that create objects *)

(** An argument of a constructor call is evaluated before the call: a
    parameter handed over is an object of the store. *)
Definition check_ref (v : pyval) : M unit :=
  match v with
  | PyPar a => (get_obj a ;; ret tt)%M
  | _ => ret tt
  end.

(** The statements of a session: the constructor calls (the operator
    methods are calls of the unary and binary constructors) and the
    actions on existing parameters. *)
Inductive command :=
| CParameter (modelname name : string) (val : pyval)
             (min max hard_min hard_max : Q) (units : string)
             (frozen alwaysfrozen hidden : bool)
             (aliases : option (list string))
| CConstant (value : Q)
| CUnaryOp (arg : addr) (op : Q -> Q) (opstr : string)
| CBinaryOp (lhs rhs : pyval) (op : Q -> Q -> Q) (opstr : string)
| CAct (a : action).

Definition exec (fuel : nat) (c : command) : M unit :=
  (match c with
   | CParameter mn nm val mi ma hmi hma un fr af hid al =>
       check_ref val ;;
       new_Parameter fuel mn nm val mi ma hmi hma un fr af hid al ;; ret tt
   | CConstant x => new_ConstantParameter fuel x ;; ret tt
   | CUnaryOp arg op opstr =>
       check_ref (PyPar arg) ;;
       new_UnaryOpParameter fuel arg op opstr ;; ret tt
   | CBinaryOp lhs rhs op opstr =>
       check_ref lhs ;; check_ref rhs ;;
       new_BinaryOpParameter fuel lhs rhs op opstr ;; ret tt
   | CAct a => act fuel a
   end)%M.

(** [s'] has the objects of [s], each of the class it had, and the same
    allocator. *)
Definition same_shape (s s' : State) : Prop :=
  next s' = next s /\
  forall a,
    match heap s !! a, heap s' !! a with
    | Some o, Some o' => cls o' = cls o
    | None, None => True
    | _, _ => False
    end.

Definition shape_kept {A} (m : M A) : Prop :=
  forall s,
    match m s with
    | Ok _ s' | Raise _ s' => same_shape s s'
    | _ => True
    end.

(** The parts of every composite are older objects of the store, and
    the allocator is past every object. *)
Definition store_ok (s : State) : Prop :=
  parts_below (heap s) /\
  forall a, is_Some (heap s !! a) -> (a < next s)%nat.

(** [s'] is a well-formed store that has every object of [s]. *)
Definition grows (s s' : State) : Prop :=
  store_ok s' /\ forall p, is_Some (heap s !! p) -> is_Some (heap s' !! p).

(** [a.link = b + x], then [b.link = a + y]. *)
Definition cross_links (fuel : nat) (a b : addr) (x y : Q)
  : M (addr * addr) :=
  (c1 <- __add__ fuel b (PyNum x) ;;
   _set_link fuel a (PyPar c1) ;;
   c2 <- __add__ fuel a (PyNum y) ;;
   _set_link fuel b (PyPar c2) ;;
   ret (c1, c2))%M.

(** The actions other than an assignment to [min] or [max], alone or
    within [set]. *)
Definition leaves_limits (a : action) : bool :=
  match a with
  | ActOp _ (OpMin _) | ActOp _ (OpMax _) => false
  | ActOp _ (OpSet _ _ _ _ _ _ _) => false
  | _ => true
  end.

(** * Verification *)

(** ** Comparisons *)

Lemma Qltb_lt (x y : Q) : Qltb x y = true <-> (x < y)%Q.
Proof. unfold Qltb, Qlt. apply Z.ltb_lt. Qed.

Lemma Qltb_ge (x y : Q) : Qltb x y = false <-> (y <= x)%Q.
Proof. unfold Qltb, Qle. apply Z.ltb_ge. Qed.

Lemma Qgtb_gt (x y : Q) : Qgtb x y = true <-> (y < x)%Q.
Proof. apply Qltb_lt. Qed.

Lemma Qgtb_le (x y : Q) : Qgtb x y = false <-> (x <= y)%Q.
Proof. apply Qltb_ge. Qed.

(** Turn the boolean tests met in a goal into order facts. *)
Ltac order_facts :=
  repeat match goal with
         | H : Qltb _ _ = true |- _ => apply Qltb_lt in H
         | H : Qltb _ _ = false |- _ => apply Qltb_ge in H
         | H : Qgtb _ _ = true |- _ => apply Qgtb_gt in H
         | H : Qgtb _ _ = false |- _ => apply Qgtb_le in H
         end.

(** ** One object in the store *)

Lemma put_lookup s a o : heap (put s a o) !! a = Some o.
Proof. apply lookup_insert_eq. Qed.

Lemma put_put s a o o' : put (put s a o) a o' = put s a o'.
Proof. unfold put; simpl. by rewrite insert_insert_eq. Qed.

Lemma put_same s a o : heap s !! a = Some o -> put s a o = s.
Proof. intros H. destruct s; unfold put; simpl in *. by rewrite insert_id. Qed.

Lemma update_eq s a o f :
  heap s !! a = Some o -> update a f s = Ok tt (put s a (f o)).
Proof. intros H. unfold update. by rewrite H. Qed.

Lemma get_obj_eq s a o : heap s !! a = Some o -> get_obj a s = Ok o s.
Proof. intros H. unfold get_obj, read, deref. by rewrite H. Qed.

(** The recursive readers, one unfolding at a time. *)
Lemma get_val_S n (h : store) self :
  _get_val (S n) h self =
  (o <- deref h self ;;
   if is_composite (cls o) then eval_with (_get_val n h) (cls o)
   else match _link o with
        | None => Val (_val o)
        | Some l =>
            val <- _get_val n h l ;;
            if Qltb val (_min o) then Exc (edge o "minimum" (_min o))
            else if Qgtb val (_max o) then Exc (edge o "maximum" (_max o))
            else Val val
        end)%R.
Proof. reflexivity. Qed.

Lemma get_default_val_S n (h : store) self :
  _get_default_val (S n) h self =
  (o <- deref h self ;;
   if is_composite (cls o) then eval_with (_get_val n h) (cls o)
   else match _link o with
        | Some l => _get_default_val n h l
        | None => Val (_default_val o)
        end)%R.
Proof. reflexivity. Qed.

Lemma get_parts_S n (h : store) self :
  _get_parts (S n) h self =
  (o <- deref h self ;;
   parts_loop (_get_parts n h) h self (parts_of (cls o)) [])%R.
Proof. reflexivity. Qed.

Lemma link_walk_S n fuel (h : store) self a cycle :
  link_walk (S n) fuel h self (Some a) cycle =
  (hit <- (if decide (a = self) then Val true else contains fuel h self a) ;;
   o <- deref h a ;;
   link_walk n fuel h self (_link o) (if hit then true else cycle))%R.
Proof. reflexivity. Qed.

Lemma link_walk_None n fuel (h : store) self cycle :
  link_walk n fuel h self None cycle = Val cycle.
Proof. by destruct n. Qed.

Lemma deref_eq (h : store) a o : h !! a = Some o -> deref h a = Val o.
Proof. intros H. unfold deref. by rewrite H. Qed.

(** A plain parameter without a link reads its stored value. *)
Lemma get_val_stored n (h : store) a o :
  h !! a = Some o -> cls o = PlainParameter -> _link o = None ->
  _get_val (S n) h a = Val (_val o).
Proof.
  intros H Hc Hl. rewrite get_val_S, (deref_eq _ _ _ H). simpl.
  by rewrite Hc, Hl.
Qed.

Lemma get_default_val_stored n (h : store) a o :
  h !! a = Some o -> cls o = PlainParameter -> _link o = None ->
  _get_default_val (S n) h a = Val (_default_val o).
Proof.
  intros H Hc Hl. rewrite get_default_val_S, (deref_eq _ _ _ H). simpl.
  by rewrite Hc, Hl.
Qed.

(** ** What each setter does to its object *)

Lemma set_link_None_eq fuel s self o :
  heap s !! self = Some o ->
  _set_link fuel self PyNone s = Ok tt (put s self (with_link None o)).
Proof. apply update_eq. Qed.

(** A numeric assignment to [val] clears the link first, then validates
    against the soft limits, then stores value and default value. *)
Lemma set_val_num_eq fuel s self o x :
  heap s !! self = Some o ->
  _set_val fuel self (PyNum x) s =
  if Qltb x (_min o)
  then Raise (edge o "minimum" (_min o)) (put s self (with_link None o))
  else if Qgtb x (_max o)
  then Raise (edge o "maximum" (_max o)) (put s self (with_link None o))
  else Ok tt (put s self (with_default_val x (with_val x (with_link None o)))).
Proof.
  intros H. unfold _set_val, bind.
  rewrite (set_link_None_eq _ _ _ _ H).
  rewrite (get_obj_eq _ _ _ (put_lookup _ _ _)). simpl.
  unfold SherpaFloat.
  destruct (Qltb x (_min o)); [reflexivity|].
  destruct (Qgtb x (_max o)); [reflexivity|].
  rewrite (update_eq _ _ _ _ (put_lookup _ _ _)), put_put.
  rewrite (update_eq _ _ _ _ (put_lookup _ _ _)), put_put.
  reflexivity.
Qed.

Lemma set_default_val_num_eq fuel s self o x :
  heap s !! self = Some o ->
  _set_default_val fuel self (PyNum x) s =
  if Qltb x (_min o)
  then Raise (edge o "minimum" (_min o)) (put s self (with_link None o))
  else if Qgtb x (_max o)
  then Raise (edge o "maximum" (_max o)) (put s self (with_link None o))
  else Ok tt (put s self (with_default_val x (with_link None o))).
Proof.
  intros H. unfold _set_default_val, bind.
  rewrite (set_link_None_eq _ _ _ _ H).
  rewrite (get_obj_eq _ _ _ (put_lookup _ _ _)). simpl.
  unfold SherpaFloat.
  destruct (Qltb x (_min o)); [reflexivity|].
  destruct (Qgtb x (_max o)); [reflexivity|].
  rewrite (update_eq _ _ _ _ (put_lookup _ _ _)), put_put.
  reflexivity.
Qed.

(** The limit setter on a plain parameter whose value reads as [cur]. *)
Lemma set_limit_eq n name s self o v cur :
  heap s !! self = Some o ->
  cls o = PlainParameter ->
  _get_val (S n) (heap s) self = Val cur ->
  _set_limit (S n) name self v s =
  if Qltb v (_hard_min o)
  then Raise (edge o "hard minimum" (_hard_min o)) s
  else if Qgtb v (_hard_max o)
  then Raise (edge o "hard maximum" (_hard_max o)) s
  else if initialized o && repair_fires name v cur
  then if Qltb v (_min o)
       then Raise (edge o "minimum" (_min o)) (put s self (with_link None o))
       else if Qgtb v (_max o)
       then Raise (edge o "maximum" (_max o)) (put s self (with_link None o))
       else Ok tt (mkState (<[self := repaired name v o]> (heap s)) (next s)
                           (log s ++ repair_warning name (fullname o) v))
  else Ok tt (put s self (setattr_limit name v o)).
Proof.
  intros H Hc Hv. unfold _set_limit, bind, SherpaFloat.
  rewrite (get_obj_eq _ _ _ H).
  destruct (Qltb v (_hard_min o)); [reflexivity|].
  destruct (Qgtb v (_hard_max o)); [reflexivity|].
  destruct (initialized o); cbn [andb];
    [|unfold ret; by rewrite (update_eq _ _ _ _ H)].
  assert (Hread : read (fun h => _get_val (S n) h self) s = Ok cur s)
    by (unfold read; by rewrite Hv).
  assert (Hnow : forall s' : State,
             read (fun h => _get_val (S n) h self)
                  (put s' self (with_default_val v
                                  (with_val v (with_link None o))))
             = Ok v (put s' self (with_default_val v
                                    (with_val v (with_link None o))))).
  { intros s'. unfold read.
    rewrite (get_val_stored n _ self _ (put_lookup _ _ _)); [done|done|done]. }
  destruct name; cbn [repair_fires repair_warning]; unfold ret;
    rewrite ?Hread; try (by rewrite (update_eq _ _ _ _ H)).
  - destruct (Qgtb v cur); [|by rewrite (update_eq _ _ _ _ H)].
    rewrite (set_val_num_eq _ _ _ _ _ H).
    destruct (Qltb v (_min o)); [reflexivity|].
    destruct (Qgtb v (_max o)); [reflexivity|].
    rewrite (get_obj_eq _ _ _ (put_lookup _ _ _)), Hnow.
    unfold warn, update, repaired, put; simpl.
    rewrite lookup_insert_eq, insert_insert_eq. reflexivity.
  - destruct (Qltb v cur); [|by rewrite (update_eq _ _ _ _ H)].
    rewrite (set_val_num_eq _ _ _ _ _ H).
    destruct (Qltb v (_min o)); [reflexivity|].
    destruct (Qgtb v (_max o)); [reflexivity|].
    rewrite (get_obj_eq _ _ _ (put_lookup _ _ _)), Hnow.
    unfold warn, update, repaired, put; simpl.
    rewrite lookup_insert_eq, insert_insert_eq. reflexivity.
Qed.

(** Without a repair (during construction, or for the default limits)
    the value is never read. *)
Lemma set_limit_plain_eq fuel name s self o v :
  heap s !! self = Some o ->
  initialized o = false \/ name = L_default_min \/ name = L_default_max ->
  _set_limit fuel name self v s =
  if Qltb v (_hard_min o)
  then Raise (edge o "hard minimum" (_hard_min o)) s
  else if Qgtb v (_hard_max o)
  then Raise (edge o "hard maximum" (_hard_max o)) s
  else Ok tt (put s self (setattr_limit name v o)).
Proof.
  intros H Hcase. unfold _set_limit, bind, SherpaFloat.
  rewrite (get_obj_eq _ _ _ H).
  destruct (Qltb v (_hard_min o)); [reflexivity|].
  destruct (Qgtb v (_hard_max o)); [reflexivity|].
  destruct Hcase as [Hi|[->| ->]].
  - rewrite Hi. unfold ret. by rewrite (update_eq _ _ _ _ H).
  - destruct (initialized o); unfold ret; by rewrite (update_eq _ _ _ _ H).
  - destruct (initialized o); unfold ret; by rewrite (update_eq _ _ _ _ H).
Qed.

(** Reduce attribute reads of written objects. *)
Ltac obj_simpl :=
  cbn [cls modelname name fullname _hard_min _hard_max units _alwaysfrozen
       _frozen hidden _min _max _val _default_min _default_max _default_val
       _link _guessed aliases initialized
       with_modelname with_name with_fullname with_hard_min with_hard_max
       with_units with_alwaysfrozen with_frozen with_hidden with_min with_max
       with_val with_default_min with_default_max with_default_val with_link
       with_guessed with_aliases with_initialized setattr_limit repaired
       blank].

(** Construction from numbers either passes all checks and yields
    [constructed], or raises because one of them fails. *)
Lemma init_num fuel s self o0 mn nm x mi ma hmi hma un fr af hid al :
  heap s !! self = Some o0 ->
  initialized o0 = false ->
  match Parameter__init__ fuel self mn nm (PyNum x) mi ma hmi hma un fr af
          hid al s with
  | Ok _ s' =>
      s' = put s self (constructed o0 mn nm x mi ma hmi hma un fr af hid al)
      /\ init_checks x mi ma hmi hma
  | Raise _ _ => ~ init_checks x mi ma hmi hma
  | _ => False
  end.
Proof.
  intros H Hi. unfold Parameter__init__, bind, SherpaFloat.
  rewrite (update_eq _ _ _ _ H).
  repeat rewrite (update_eq _ _ _ _ (put_lookup _ _ _)), put_put.
  assert (Hfr : forall o, (if af then update self (with_frozen true)
                      else update self (with_frozen fr)) (put s self o)
                = Ok tt (put s self
                           (with_frozen (if af then true else fr) o))).
  { intros o. destruct af;
      by rewrite (update_eq _ _ _ _ (put_lookup _ _ _)), put_put. }
  rewrite Hfr.
  rewrite (update_eq _ _ _ _ (put_lookup _ _ _)), put_put.
  rewrite (set_limit_plain_eq _ _ _ _ _ _ (put_lookup _ _ _))
    by (left; exact Hi).
  obj_simpl.
  destruct (Qltb mi hmi) eqn:E1;
    [unfold init_checks; order_facts; intros (?&?&?); by apply (Qlt_not_le _ _ E1)|].
  destruct (Qgtb mi hma) eqn:E2;
    [unfold init_checks; order_facts; intros (?&?&?); by apply (Qlt_not_le _ _ E2)|].
  rewrite put_put.
  rewrite (set_limit_plain_eq _ _ _ _ _ _ (put_lookup _ _ _))
    by (left; exact Hi).
  obj_simpl.
  destruct (Qltb ma hmi) eqn:E3;
    [unfold init_checks; order_facts; intros (?&?&?&?); by apply (Qlt_not_le _ _ E3)|].
  destruct (Qgtb ma hma) eqn:E4;
    [unfold init_checks; order_facts; intros (?&?&?&?&?);
     by apply (Qlt_not_le _ _ E4)|].
  rewrite put_put.
  rewrite (set_val_num_eq _ _ _ _ _ (put_lookup _ _ _)).
  obj_simpl.
  destruct (Qltb x mi) eqn:E5;
    [unfold init_checks; order_facts; intros (?&?&?&?&?&?);
     by apply (Qlt_not_le _ _ E5)|].
  destruct (Qgtb x ma) eqn:E6;
    [unfold init_checks; order_facts; intros (?&?&?&?&?&?);
     by apply (Qlt_not_le _ _ E6)|].
  rewrite put_put.
  rewrite (set_limit_plain_eq _ _ _ _ _ _ (put_lookup _ _ _))
    by (left; exact Hi).
  obj_simpl.
  rewrite E1, E2, put_put.
  rewrite (set_limit_plain_eq _ _ _ _ _ _ (put_lookup _ _ _))
    by (left; exact Hi).
  obj_simpl.
  rewrite E3, E4, put_put.
  rewrite (set_default_val_num_eq _ _ _ _ _ (put_lookup _ _ _)).
  obj_simpl.
  rewrite E5, E6, put_put.
  rewrite (set_link_None_eq _ _ _ _ (put_lookup _ _ _)), put_put.
  repeat rewrite (update_eq _ _ _ _ (put_lookup _ _ _)), put_put.
  order_facts. split; [reflexivity|].
  unfold init_checks. tauto.
Qed.

(** ** Scripts of operations on one parameter *)




Lemma put_heap_lookup s a o : heap (put s a o) !! a = Some o.
Proof. apply put_lookup. Qed.






(** Construction from numbers: a new plain parameter with every pair of
    stored fields in order. *)
Lemma new_Parameter_num fuel s mn nm x mi ma hmi hma un fr af hid al :
  match new_Parameter fuel mn nm (PyNum x) mi ma hmi hma un fr af hid al s
  with
  | Ok p s' =>
      p = next s /\
      s' = mkState (<[p := constructed (blank PlainParameter) mn nm x mi ma
                            hmi hma un fr af hid al]> (heap s))
                   (S (next s)) (log s) /\
      init_checks x mi ma hmi hma
  | Raise _ _ => ~ init_checks x mi ma hmi hma
  | _ => False
  end.
Proof.
  unfold new_Parameter, bind, alloc.
  set (s1 := mkState _ _ _).
  assert (H1 : heap s1 !! next s = Some (blank PlainParameter))
    by apply lookup_insert_eq.
  pose proof (init_num fuel s1 (next s) _ mn nm x mi ma hmi hma un fr af
                hid al H1 eq_refl) as Hinit.
  destruct (Parameter__init__ _ _ _ _ _ _ _ _ _ _ _ _ _ _ s1)
    as [[] s'| | |]; try done.
  destruct Hinit as [-> Hchk]. unfold ret. split; [done|]. split; [|done].
  unfold put, s1; simpl. by rewrite insert_insert_eq.
Qed.

(** The default hard limits are the extremes of a 32-bit float,
    -/+ (2 - 2^-23) * 2^127. *)
Lemma hugeval_FLT_MAX : (hugeval == (2 - (1 # 2) ^ 23) * 2 ^ 127)%Q.
Proof. reflexivity. Qed.

Lemma new_Parameter_default_hard fuel mn nm x s :
  new_Parameter_default fuel mn nm x s =
  new_Parameter fuel mn nm (PyNum x) (- hugeval) hugeval (- hugeval) hugeval
    "" false false false None s.
Proof. reflexivity. Qed.




(** ** The default fields *)







(** [reset] on a plain parameter without a link. *)
Lemma reset_eq n s self o :
  heap s !! self = Some o -> cls o = PlainParameter -> _link o = None ->
  Parameter_reset (S n) self s =
  Ok tt (put s self
           (with_val (_default_val o)
              (if _guessed o
               then with_guessed false
                      (with_max (_default_max o) (with_min (_default_min o) o))
               else o))).
Proof.
  intros H Hc Hl. unfold Parameter_reset, bind.
  rewrite (get_obj_eq _ _ _ H).
  destruct (_guessed o).
  - rewrite (update_eq _ _ _ _ H).
    rewrite (update_eq _ _ _ _ (put_lookup _ _ _)), put_put.
    rewrite (update_eq _ _ _ _ (put_lookup _ _ _)), put_put.
    unfold read.
    rewrite (get_default_val_stored n _ self _ (put_lookup _ _ _));
      [|exact Hc|exact Hl].
    by rewrite (update_eq _ _ _ _ (put_lookup _ _ _)), put_put.
  - unfold ret, read.
    rewrite (get_default_val_stored n _ self _ H Hc Hl).
    by rewrite (update_eq _ _ _ _ H).
Qed.











(** ** Assignment to [val] followed by [reset] *)

(** C1, as the code has it.  For a plain parameter [p], a successful
    [p.val = x] followed by [p.reset()] leaves [p.val == x]: the
    assignment stores [x] as the default value too, so [reset] restores
    the assigned value, not the default of construction time. *)
Theorem reset_restores_assigned_value
    (n : nat) (s : State) (p : addr) (o : ParameterObj) (x : Q)
    (s1 : State) :
  heap s !! p = Some o ->
  cls o = PlainParameter ->
  _set_val (S n) p (PyNum x) s = Ok tt s1 ->
  exists s2,
    Parameter_reset (S n) p s1 = Ok tt s2 /\
    _get_val (S n) (heap s2) p = Val x /\
    _get_default_val (S n) (heap s2) p = Val x.
Proof.
  intros H Hc Hset. rewrite (set_val_num_eq _ _ _ _ _ H) in Hset.
  destruct (Qltb x (_min o)); [discriminate|].
  destruct (Qgtb x (_max o)); [discriminate|].
  injection Hset as <-.
  set (o1 := with_default_val x (with_val x (with_link None o))).
  set (o2 := with_val (_default_val o1)
               (if _guessed o1
                then with_guessed false
                       (with_max (_default_max o1)
                          (with_min (_default_min o1) o1))
                else o1)).
  assert (Hc2 : cls o2 = PlainParameter)
    by (unfold o2, o1; simpl; by destruct (_guessed o)).
  assert (Hl2 : _link o2 = None)
    by (unfold o2, o1; simpl; by destruct (_guessed o)).
  exists (put s p o2). split.
  - rewrite (reset_eq n _ p o1 (put_lookup _ _ _) Hc eq_refl).
    by rewrite put_put.
  - split.
    + by rewrite (get_val_stored n _ p _ (put_lookup _ _ _) Hc2 Hl2).
    + rewrite (get_default_val_stored n _ p _ (put_lookup _ _ _) Hc2 Hl2).
      unfold o2, o1; simpl. by destruct (_guessed o).
Qed.

Lemma reset_restores_assigned_value_witness :
  exists s2,
    Parameter_reset 1 0%nat
      (state_after (p <- new_Parameter_default 1 "m" "p" 2 ;;
                    _set_val 1 p (PyNum 7))%M init_state) = Ok tt s2 /\
    _get_val 1 (heap s2) 0%nat = Val 7%Q /\
    _get_default_val 1 (heap s2) 0%nat = Val 7%Q.
Proof.
  apply (reset_restores_assigned_value 0
           (state_after (new_Parameter_default 1 "m" "p" 2) init_state)
           0%nat
           (constructed (blank PlainParameter) "m" "p" 2 (- hugeval) hugeval
              (- hugeval) hugeval "" false false false None)).
  - vm_compute. reflexivity.
  - reflexivity.
  - vm_compute. reflexivity.
Defined.

(** C1 fails as stated: with [p = Parameter("m", "p", 2)], whose default
    value at construction is 2 and is never assigned, [p.val = 7] then
    [p.reset()] leaves [p.val == 7], the assigned value. *)
Lemma reset_round_trip_counterexample :
  exists p s0 s',
    new_Parameter_default 1 "m" "p" 2 init_state = Ok p s0 /\
    _get_default_val 1 (heap s0) p = Val 2%Q /\
    (_set_val 1 p (PyNum 7) ;; Parameter_reset 1 p)%M s0 = Ok tt s' /\
    _get_val 1 (heap s') p = Val 7%Q /\
    ~ (7 == 2)%Q.
Proof.
  eexists. eexists. eexists.
  split; [vm_compute; reflexivity|].
  split; [vm_compute; reflexivity|].
  split; [vm_compute; reflexivity|].
  split; [vm_compute; reflexivity|].
  intros H. discriminate H.
Qed.

(** ** A failed assignment to [val] *)

Lemma with_link_same o : _link o = None -> with_link None o = o.
Proof. destruct o; simpl; intros ->; reflexivity. Qed.

(** C2, as the code has it.  When [p.val = x] raises for a number [x],
    the exception is the [edge] error of the violated soft limit and the
    state is the one before the assignment with the link of [p] cleared:
    the setter resets the link before it validates.  If [p] had no link
    the whole state is unchanged. *)
Theorem failed_val_assignment_clears_link
    (fuel : nat) (s : State) (p : addr) (o : ParameterObj) (x : Q)
    (e : exn) (s' : State) :
  heap s !! p = Some o ->
  _set_val fuel p (PyNum x) s = Raise e s' ->
  s' = put s p (with_link None o) /\
  (_link o = None -> s' = s) /\
  ((x < _min o)%Q /\ e = edge o "minimum" (_min o) \/
   (_max o < x)%Q /\ e = edge o "maximum" (_max o)).
Proof.
  intros H Hset. rewrite (set_val_num_eq _ _ _ _ _ H) in Hset.
  assert (Hsame : _link o = None -> put s p (with_link None o) = s).
  { intros Hl. rewrite (with_link_same _ Hl). by apply put_same. }
  destruct (Qltb x (_min o)) eqn:E1.
  { injection Hset as <- <-. order_facts. auto. }
  destruct (Qgtb x (_max o)) eqn:E2; [|discriminate].
  injection Hset as <- <-. order_facts. auto.
Qed.

Lemma failed_val_assignment_clears_link_witness :
  state_after (_set_val 2 1%nat (PyNum 100))
              (state_after (linked_pair 2) init_state)
  = put (state_after (linked_pair 2) init_state) 1%nat
        (with_link None
           (with_link (Some 3%nat)
              (constructed (blank PlainParameter) "m" "b" 1 0 20 (- hugeval)
                 hugeval "" false false false None))) /\
  (_link (with_link (Some 3%nat)
            (constructed (blank PlainParameter) "m" "b" 1 0 20 (- hugeval)
               hugeval "" false false false None)) = None ->
   state_after (_set_val 2 1%nat (PyNum 100))
               (state_after (linked_pair 2) init_state)
   = state_after (linked_pair 2) init_state) /\
  ((100 < 0)%Q /\
   ParameterErr "edge" [AStr "m.b"; AStr "maximum"; ANum 20] =
   ParameterErr "edge" [AStr "m.b"; AStr "minimum"; ANum 0] \/
   (20 < 100)%Q /\
   ParameterErr "edge" [AStr "m.b"; AStr "maximum"; ANum 20] =
   ParameterErr "edge" [AStr "m.b"; AStr "maximum"; ANum 20]).
Proof.
  apply (failed_val_assignment_clears_link 2
           (state_after (linked_pair 2) init_state) 1%nat
           (with_link (Some 3%nat)
              (constructed (blank PlainParameter) "m" "b" 1 0 20 (- hugeval)
                 hugeval "" false false false None))
           100
           (ParameterErr "edge" [AStr "m.b"; AStr "maximum"; ANum 20])).
  - vm_compute. reflexivity.
  - vm_compute. reflexivity.
Defined.

(** C2 fails as stated: with [b] linked as in [linked_pair], [b.val = 100]
    raises the [edge] error for the maximum 20 and [b.link], which was the
    expression [10 - a], is [None] afterwards. *)
Lemma failed_val_assignment_counterexample :
  exists s0 s' e ob ob',
    linked_pair 2 init_state = Ok tt s0 /\
    _set_val 2 1%nat (PyNum 100) s0 = Raise e s' /\
    e = ParameterErr "edge" [AStr "m.b"; AStr "maximum"; ANum 20] /\
    heap s0 !! 1%nat = Some ob /\ heap s' !! 1%nat = Some ob' /\
    _link ob = Some 3%nat /\ _link ob' = None /\ s' <> s0.
Proof.
  do 5 eexists.
  split; [vm_compute; reflexivity|].
  split; [vm_compute; reflexivity|].
  split; [reflexivity|].
  split; [vm_compute; reflexivity|].
  split; [vm_compute; reflexivity|].
  split; [reflexivity|]. split; [reflexivity|].
  intros Heq. apply (f_equal (fun s => _link <$> heap s !! 1%nat)) in Heq.
  vm_compute in Heq. discriminate Heq.
Qed.

(** ** Narrowing a limit past the current value *)

(** C7, as the code has it.  For a fully constructed plain parameter
    whose value reads as [cur], assigning a new [max] below [cur] (or a
    new [min] above it) that is within the hard limits and also within
    the current soft limits [min, max] succeeds: the limit and the value
    both become the new limit and exactly one warning is logged.  (The
    repair assigns through [val], which validates against the soft
    limits; outside them the assignment raises.) *)
Theorem limit_narrowing_repairs
    (n : nat) (name : limit_name) (s : State) (p : addr) (o : ParameterObj)
    (v cur : Q) :
  heap s !! p = Some o ->
  cls o = PlainParameter ->
  initialized o = true ->
  _get_val (S n) (heap s) p = Val cur ->
  (_hard_min o <= v /\ v <= _hard_max o)%Q ->
  (_min o <= v /\ v <= _max o)%Q ->
  (name = L_max /\ (v < cur)%Q \/ name = L_min /\ (cur < v)%Q) ->
  exists s' o',
    _set_limit (S n) name p v s = Ok tt s' /\
    heap s' !! p = Some o' /\
    (name = L_max -> _max o' = v) /\
    (name = L_min -> _min o' = v) /\
    _get_val (S n) (heap s') p = Val v /\
    log s' = (log s ++ repair_warning name (fullname o) v)%list /\
    length (repair_warning name (fullname o) v) = 1%nat.
Proof.
  intros H Hc Hi Hv [Hh1 Hh2] [Hs1 Hs2] Hfire.
  rewrite (set_limit_eq _ _ _ _ _ _ _ H Hc Hv), Hi.
  apply Qgtb_le in Hh2, Hs2. apply Qltb_ge in Hh1, Hs1.
  rewrite Hh1, Hh2, Hs1, Hs2.
  assert (Hf : repair_fires name v cur = true).
  { destruct Hfire as [[-> Hlt]|[-> Hlt]]; simpl;
      [by apply Qltb_lt | by apply Qgtb_gt]. }
  rewrite Hf. cbn [andb].
  eexists; eexists. split; [reflexivity|]. cbn [heap log].
  split; [apply lookup_insert_eq|].
  split; [intros ->; reflexivity|].
  split; [intros ->; reflexivity|].
  split.
  - rewrite (get_val_stored n _ p _ (lookup_insert_eq _ _ _)).
    + destruct Hfire as [[-> _]|[-> _]]; reflexivity.
    + destruct Hfire as [[-> _]|[-> _]]; exact Hc.
    + destruct Hfire as [[-> _]|[-> _]]; reflexivity.
  - split; [reflexivity|]. destruct Hfire as [[-> _]|[-> _]]; reflexivity.
Qed.

Lemma limit_narrowing_repairs_witness :
  exists s' o',
    _set_limit 1 L_max 0%nat 3
      (state_after (new_Parameter_minmax 1 "m" "p" 5 0 10) init_state)
    = Ok tt s' /\
    heap s' !! 0%nat = Some o' /\
    (L_max = L_max -> _max o' = 3%Q) /\
    (L_max = L_min -> _min o' = 3%Q) /\
    _get_val 1 (heap s') 0%nat = Val 3%Q /\
    log s' =
      (log (state_after (new_Parameter_minmax 1 "m" "p" 5 0 10) init_state)
       ++ repair_warning L_max (fullname p_5_0_10) 3)%list /\
    length (repair_warning L_max (fullname p_5_0_10) 3) = 1%nat.
Proof.
  apply (limit_narrowing_repairs 0 L_max
           (state_after (new_Parameter_minmax 1 "m" "p" 5 0 10) init_state)
           0%nat p_5_0_10 3 5).
  - vm_compute. reflexivity.
  - reflexivity.
  - reflexivity.
  - vm_compute. reflexivity.
  - split; vm_compute; discriminate.
  - split; vm_compute; discriminate.
  - left. split; [reflexivity|]. reflexivity.
Defined.

(** C7 fails as stated: with [p = Parameter("m", "p", 5, min=4, max=10)],
    [p.max = 3] is below the current value 5 and within the hard limits,
    yet it raises the [edge] error for the minimum 4, logs nothing and
    leaves [max] at 10. *)
Lemma limit_narrowing_counterexample :
  exists p s0 s' o',
    new_Parameter_minmax 1 "m" "p" 5 4 10 init_state = Ok p s0 /\
    _get_val 1 (heap s0) p = Val 5%Q /\
    (- hugeval <= 3 /\ 3 < 5 /\ 3 <= hugeval)%Q /\
    _set_limit 1 L_max p 3 s0 =
      Raise (ParameterErr "edge" [AStr "m.p"; AStr "minimum"; ANum 4]) s' /\
    heap s' !! p = Some o' /\ _max o' = 10%Q /\ log s' = [].
Proof.
  do 4 eexists.
  split; [vm_compute; reflexivity|].
  split; [vm_compute; reflexivity|].
  split; [repeat split; vm_compute; (discriminate || reflexivity)|].
  split; [vm_compute; reflexivity|].
  split; [vm_compute; reflexivity|].
  split; reflexivity.
Qed.

(** ** The frame of the auto-repair *)



(** ** Reading a linked parameter *)




(** The scenario of the specification, run: [b.val] is 8; after
    [a.val = 3] it is 7; [a.val = -15] succeeds, and the next read of
    [b.val] raises the [edge] error for the maximum 20 of [b]. *)
Example linked_pair_reads :
  (linked_pair 3 ;; read (fun h => _get_val 3 h 1%nat))%M init_state
  = Ok 8%Q (state_after (linked_pair 3) init_state) /\
  (exists s', (linked_pair 3 ;; _set_val 3 0%nat (PyNum 3))%M init_state
              = Ok tt s' /\ _get_val 3 (heap s') 1%nat = Val 7%Q) /\
  (exists s', (linked_pair 3 ;; _set_val 3 0%nat (PyNum (-15)))%M init_state
              = Ok tt s' /\
              _get_val 3 (heap s') 1%nat =
              Exc (ParameterErr "edge"
                     [AStr "m.b"; AStr "maximum"; ANum 20])).
Proof.
  split; [vm_compute; reflexivity|].
  split; eexists; (split; [vm_compute; reflexivity|vm_compute; reflexivity]).
Qed.

(** ** Link cycles *)

(** C9, as the code has it.  For a parameter [p] that is not
    always-frozen and an expression [e] whose iteration yields [p], the
    assignment [p.link = e] raises [ParameterErr("linkcycle")] and
    leaves the whole state, so also [p.link], as it was.  (An
    always-frozen [p] is rejected earlier, with reason
    [frozennolink].) *)
Theorem self_link_rejected
    (fuel : nat) (s : State) (p e : addr) (o : ParameterObj)
    (l : list addr) :
  heap s !! p = Some o ->
  _alwaysfrozen o = false ->
  __iter__ fuel (heap s) e = Val l ->
  p ∈ l ->
  _set_link fuel p (PyPar e) s = Raise (ParameterErr "linkcycle" []) s /\
  (_link o = None ->
   exists o', heap (state_after (_set_link fuel p (PyPar e)) s) !! p = Some o'
              /\ _link o' = None).
Proof.
  intros H Haf Hit Hin.
  assert (Hraise : _set_link fuel p (PyPar e) s
                   = Raise (ParameterErr "linkcycle" []) s).
  { unfold _set_link, bind. rewrite (get_obj_eq _ _ _ H), Haf.
    unfold read, contains. rewrite Hit. simpl.
    by rewrite (bool_decide_eq_true_2 _ Hin). }
  split; [exact Hraise|].
  intros Hl. unfold state_after. rewrite Hraise. by exists o.
Qed.

Lemma self_link_rejected_witness :
  _set_link 3 0%nat (PyPar 4%nat)
    (state_after (p <- new_Parameter_default 3 "m" "p" 1 ;;
                  two_p_plus_3 3 p)%M init_state)
  = Raise (ParameterErr "linkcycle" [])
      (state_after (p <- new_Parameter_default 3 "m" "p" 1 ;;
                    two_p_plus_3 3 p)%M init_state) /\
  (_link (constructed (blank PlainParameter) "m" "p" 1 (- hugeval) hugeval
            (- hugeval) hugeval "" false false false None) = None ->
   exists o',
     heap (state_after (_set_link 3 0%nat (PyPar 4%nat))
             (state_after (p <- new_Parameter_default 3 "m" "p" 1 ;;
                           two_p_plus_3 3 p)%M init_state)) !! 0%nat
     = Some o' /\ _link o' = None).
Proof.
  apply (self_link_rejected 3
           (state_after (p <- new_Parameter_default 3 "m" "p" 1 ;;
                         two_p_plus_3 3 p)%M init_state)
           0%nat 4%nat
           (constructed (blank PlainParameter) "m" "p" 1 (- hugeval) hugeval
              (- hugeval) hugeval "" false false false None)
           [2; 1; 0; 3]%nat).
  - vm_compute. reflexivity.
  - reflexivity.
  - vm_compute. reflexivity.
  - set_solver.
Defined.

(** C9 fails as stated: for [p = Parameter("m", "p", 1,
    alwaysfrozen=True)], which has no link, [p.link = 2 * p + 3] raises
    [ParameterErr] with reason [frozennolink], not [linkcycle]. *)
Lemma self_link_counterexample :
  exists p s0 e s1 o,
    new_Parameter 3 "m" "p" (PyNum 1) (- hugeval) hugeval (- hugeval) hugeval
      "" false true false None init_state = Ok p s0 /\
    two_p_plus_3 3 p s0 = Ok e s1 /\
    heap s1 !! p = Some o /\ _link o = None /\
    contains 3 (heap s1) p e = Val true /\
    _set_link 3 p (PyPar e) s1
    = Raise (ParameterErr "frozennolink" [AStr "m.p"]) s1 /\
    ParameterErr "frozennolink" [AStr "m.p"] <> ParameterErr "linkcycle" [].
Proof.
  do 5 eexists.
  split; [vm_compute; reflexivity|].
  split; [vm_compute; reflexivity|].
  split; [vm_compute; reflexivity|].
  split; [reflexivity|].
  split; [vm_compute; reflexivity|].
  split; [vm_compute; reflexivity|].
  discriminate.
Qed.

(** *** Cycles through a chain of links *)

Lemma iterates_hit fuel h self ll :
  iterates fuel h self ll ->
  exists b, (if decide (ll = self) then Val true
             else contains fuel h self ll) = Val b.
Proof.
  intros [->|[parts Hp]].
  - exists true. by rewrite decide_True.
  - destruct (decide (ll = self)); [by exists true|].
    unfold contains. rewrite Hp. simpl. eauto.
Qed.

Lemma reaches_hit fuel h self ll :
  reaches fuel h self ll ->
  (if decide (ll = self) then Val true else contains fuel h self ll)
  = Val true.
Proof.
  intros [->|(parts & Hp & Hin)].
  - by rewrite decide_True.
  - destruct (decide (ll = self)); [done|].
    unfold contains. rewrite Hp. simpl. by rewrite bool_decide_eq_true_2.
Qed.

(** Along a finite chain the loop ends; it keeps a cycle flag that is
    set and sets it when some parameter of the chain reaches [self]. *)
Lemma link_walk_chain fuel h self l :
  forall a n cycle,
    chain_from h a l = true ->
    (length l <= n)%nat ->
    (forall ll, ll ∈ l -> iterates fuel h self ll) ->
    exists c',
      link_walk n fuel h self (Some a) cycle = Val c' /\
      (cycle = true -> c' = true) /\
      ((exists ll, ll ∈ l /\ reaches fuel h self ll) -> c' = true).
Proof.
  induction l as [|x rest IH]; intros a n cycle Hch Hlen Hit; [done|].
  simpl in Hch. apply andb_prop in Hch as [Hx Hch].
  apply bool_decide_eq_true_1 in Hx as ->.
  destruct (h !! a) as [o|] eqn:Ha; [|done].
  destruct n as [|n]; [simpl in Hlen; lia|].
  rewrite link_walk_S, (deref_eq _ _ _ Ha).
  destruct (iterates_hit fuel h self a (Hit a ltac:(left))) as [b Hb].
  rewrite Hb. cbn [rbind].
  destruct rest as [|y rest'].
  - apply bool_decide_eq_true_1 in Hch. rewrite Hch, link_walk_None.
    eexists. split; [reflexivity|]. split.
    + intros ->. by destruct b.
    + intros (ll & Hin & Hr). apply list_elem_of_singleton in Hin as ->.
      apply reaches_hit in Hr. rewrite Hr in Hb. by injection Hb as <-.
  - apply andb_prop in Hch as [Hy Hch].
    apply bool_decide_eq_true_1 in Hy. rewrite Hy.
    destruct (IH y n (if b then true else cycle) Hch) as (c' & Hw & Hc1 & Hc2).
    { simpl in *. lia. }
    { intros ll Hin. apply Hit. by right. }
    exists c'. split; [exact Hw|]. split.
    + intros ->. apply Hc1. by destruct b.
    + intros (ll & Hin & Hr). apply elem_of_cons in Hin as [->|Hin].
      * apply reaches_hit in Hr. rewrite Hr in Hb. injection Hb as <-.
        by apply Hc1.
      * apply Hc2. eauto.
Qed.

(** C5, as the code has it.  Let [p] be a parameter that is not
    always-frozen and [e] a parameter whose iteration does not yield [p],
    such that following [.link] from [e] ends after finitely many
    parameters, one of which is [p] or iterates to [p].  Then
    [p.link = e] does not raise: it sets [e.link = None] and then stores
    [e] as the link of [p]; nothing else changes.  (An always-frozen [p]
    is rejected with [frozennolink].) *)
Theorem long_cycle_breaks_downstream_link
    (fuel : nat) (s : State) (p e : addr) (o oe : ParameterObj)
    (parts l : list addr) :
  heap s !! p = Some o ->
  _alwaysfrozen o = false ->
  heap s !! e = Some oe ->
  __iter__ fuel (heap s) e = Val parts ->
  p ∉ parts ->
  chain_from (heap s) e l = true ->
  (length l <= fuel)%nat ->
  (forall ll, ll ∈ l -> iterates fuel (heap s) p ll) ->
  (exists ll, ll ∈ l /\ reaches fuel (heap s) p ll) ->
  _set_link fuel p (PyPar e) s =
  Ok tt (mkState (<[p := with_link (Some e) o]>
                    (<[e := with_link None oe]> (heap s)))
                 (next s) (log s)).
Proof.
  intros H Haf He Hparts Hnotin Hch Hlen Hit Hreach.
  assert (Hshort : contains fuel (heap s) p e = Val false).
  { unfold contains. rewrite Hparts. simpl.
    by rewrite (bool_decide_eq_false_2 _ Hnotin). }
  destruct (link_walk_chain fuel (heap s) p l e fuel false Hch Hlen Hit)
    as (c' & Hw & _ & Hc).
  rewrite (Hc Hreach) in Hw.
  unfold _set_link, bind. rewrite (get_obj_eq _ _ _ H), Haf.
  unfold read. rewrite Hshort, Hw.
  rewrite (update_eq _ _ _ _ He).
  destruct (decide (p = e)) as [->|Hne].
  - rewrite (update_eq _ _ _ _ (put_lookup _ _ _)).
    assert (oe = o) as -> by congruence. reflexivity.
  - assert (Hp : heap (put s e (with_link None oe)) !! p = Some o)
      by (unfold put; simpl; by rewrite lookup_insert_ne).
    by rewrite (update_eq _ _ _ _ Hp).
Qed.

Lemma long_cycle_breaks_downstream_link_witness :
  _set_link 3 2%nat (PyPar 0%nat) (state_after (abc_chain 3 false) init_state)
  = Ok tt (mkState
             (<[2%nat := with_link (Some 0%nat) (plain_obj "c" 3)]>
                (<[0%nat := with_link None
                              (with_link (Some 1%nat) (plain_obj "a" 1))]>
                   (heap (state_after (abc_chain 3 false) init_state))))
             (next (state_after (abc_chain 3 false) init_state))
             (log (state_after (abc_chain 3 false) init_state))).
Proof.
  apply (long_cycle_breaks_downstream_link 3
           (state_after (abc_chain 3 false) init_state) 2%nat 0%nat
           (plain_obj "c" 3) (with_link (Some 1%nat) (plain_obj "a" 1))
           [0%nat] [0; 1; 2]%nat).
  - vm_compute. reflexivity.
  - reflexivity.
  - vm_compute. reflexivity.
  - vm_compute. reflexivity.
  - intros Hin. apply list_elem_of_singleton in Hin. discriminate Hin.
  - vm_compute. reflexivity.
  - simpl. lia.
  - intros ll Hin. right.
    repeat (apply elem_of_cons in Hin as [->|Hin]);
      [eexists; vm_compute; reflexivity ..|by apply elem_of_nil in Hin].
  - exists 2%nat. split; [set_solver|]. by left.
Defined.

(** C5 fails as stated: when [C] is always-frozen, with [A.link = B] and
    [B.link = C], the assignment [C.link = A] would close the cycle
    through two hops and [C] is not in the iteration of [A], yet the
    setter raises [ParameterErr] with reason [frozennolink] and
    [A.link] stays [B]. *)
Lemma long_cycle_counterexample :
  exists s0 s' oa,
    abc_chain 3 true init_state = Ok tt s0 /\
    chain_from (heap s0) 0%nat [0; 1; 2]%nat = true /\
    contains 3 (heap s0) 2%nat 0%nat = Val false /\
    _set_link 3 2%nat (PyPar 0%nat) s0
    = Raise (ParameterErr "frozennolink" [AStr "m.c"]) s' /\
    heap s' !! 0%nat = Some oa /\ _link oa = Some 1%nat.
Proof.
  do 3 eexists.
  split; [vm_compute; reflexivity|].
  split; [vm_compute; reflexivity|].
  split; [vm_compute; reflexivity|].
  split; [vm_compute; reflexivity|].
  split; [vm_compute; reflexivity|reflexivity].
Qed.

(** ** Composite expressions *)

Lemma default_checks : init_checks 0 (- hugeval) hugeval (- hugeval) hugeval.
Proof. unfold init_checks. repeat split; vm_compute; discriminate. Qed.

Lemma composite_init_eq fuel s self c name :
  heap s !! self = Some (blank c) ->
  CompositeParameter__init__ fuel self name s
  = Ok tt (put s self (composite_obj c name)).
Proof.
  intros H. unfold CompositeParameter__init__, bind.
  pose proof (init_num fuel s self _ "" name 0 (- hugeval) hugeval
                (- hugeval) hugeval "" false false false None H eq_refl)
    as Hinit.
  destruct (Parameter__init__ _ _ _ _ _ _ _ _ _ _ _ _ _ _ s)
    as [[] s1|e s1| |]; try done.
  - destruct Hinit as [-> _].
    by rewrite (update_eq _ _ _ _ (put_lookup _ _ _)), put_put.
  - destruct (Hinit default_checks).
Qed.

(** Allocation followed by the composite constructor. *)
Lemma new_composite_eq fuel s c name :
  (self <- alloc c ;; CompositeParameter__init__ fuel self name ;;
   ret self)%M s
  = Ok (next s) (mkState (<[next s := composite_obj c name]> (heap s))
                         (S (next s)) (log s)).
Proof.
  unfold bind at 1. unfold alloc. unfold bind.
  rewrite (composite_init_eq _ _ _ c) by apply lookup_insert_eq.
  unfold ret, put; simpl. by rewrite insert_insert_eq.
Qed.

Lemma new_ConstantParameter_eq fuel s x :
  new_ConstantParameter fuel x s
  = Ok (next s)
       (mkState (<[next s := composite_obj (ConstantParameter x) (py_str x)]>
                   (heap s))
                (S (next s)) (log s)).
Proof. apply new_composite_eq. Qed.

(** A binary node over two objects of the store, neither of them at the
    address the node gets. *)
Lemma binary_node_eq fuel s l r lo ro op opstr :
  heap s !! l = Some lo -> heap s !! r = Some ro ->
  l <> next s -> r <> next s ->
  new_BinaryOpParameter fuel (PyPar l) (PyPar r) op opstr s
  = Ok (next s)
       (mkState (<[next s := composite_obj (BinaryOpParameter l r op)
                               ("(" ++ fullname lo ++ " " ++ opstr ++ " "
                                    ++ fullname ro ++ ")")]> (heap s))
                (S (next s)) (log s)).
Proof.
  intros Hl Hr Hnl Hnr. unfold new_BinaryOpParameter, wrapobj.
  unfold bind at 1. unfold ret at 1. unfold bind at 1. unfold ret at 1.
  unfold bind at 1. unfold alloc.
  set (s1 := mkState _ _ _).
  assert (Hl1 : heap s1 !! l = Some lo)
    by (unfold s1; simpl; by rewrite lookup_insert_ne).
  assert (Hr1 : heap s1 !! r = Some ro)
    by (unfold s1; simpl; by rewrite lookup_insert_ne).
  unfold bind.
  rewrite (get_obj_eq _ _ _ Hl1), (get_obj_eq _ _ _ Hr1).
  rewrite (composite_init_eq _ _ _ (BinaryOpParameter l r op))
    by apply lookup_insert_eq.
  unfold ret, put, s1; simpl. by rewrite insert_insert_eq.
Qed.

Lemma half_sum_eq fuel s p q op oq :
  heap s !! p = Some op -> heap s !! q = Some oq ->
  (p < next s)%nat -> (q < next s)%nat ->
  half_sum fuel p q s
  = Ok (S (S (next s)))
       (mkState (half_sum_store s p q op oq) (S (S (S (next s)))) (log s)).
Proof.
  intros Hp Hq Hpn Hqn. unfold half_sum, __add__, __truediv__,
    _make_binop_func.
  unfold bind at 1.
  rewrite (binary_node_eq _ _ _ _ _ _ _ _ Hp Hq) by lia.
  unfold new_BinaryOpParameter, wrapobj.
  unfold bind at 1. unfold ret at 1. unfold bind at 1.
  rewrite new_ConstantParameter_eq. cbn [next heap log].
  set (s2 := mkState _ _ _).
  change (Ok (S (S (next s))) (mkState (half_sum_store s p q op oq)
                                  (S (S (S (next s)))) (log s)))
    with (Ok (next s2)
            (mkState (<[next s2 :=
                          composite_obj
                            (BinaryOpParameter (next s) (S (next s)) Qdiv)
                            ("(" ++ fullname
                                      (composite_obj
                                         (BinaryOpParameter p q Qplus)
                                         ("(" ++ fullname op ++ " " ++ "+"
                                              ++ " " ++ fullname oq ++ ")"))
                                 ++ " " ++ "/" ++ " "
                                 ++ fullname
                                      (composite_obj (ConstantParameter 2)
                                         (py_str 2)) ++ ")")]> (heap s2))
                     (S (next s2)) (log s2))).
  assert (Ht : heap s2 !! next s
               = Some (composite_obj (BinaryOpParameter p q Qplus)
                         ("(" ++ fullname op ++ " " ++ "+" ++ " "
                              ++ fullname oq ++ ")"))).
  { unfold s2; simpl. rewrite lookup_insert_ne by lia.
    apply lookup_insert_eq. }
  assert (Hk : heap s2 !! S (next s)
               = Some (composite_obj (ConstantParameter 2) (py_str 2)))
    by apply lookup_insert_eq.
  pose proof (binary_node_eq fuel s2 (next s) (S (next s)) _ _ Qdiv "/"
                Ht Hk) as Hb.
  unfold new_BinaryOpParameter, wrapobj in Hb.
  unfold bind at 1 in Hb. unfold ret at 1 in Hb. unfold bind at 1 in Hb.
  unfold ret at 1 in Hb.
  apply Hb; unfold s2; simpl; lia.
Qed.

(** C4, as the code has it.  For [c = (p + q) / 2] over plain parameters
    [p] and [q], iterating [c] yields, in order, the [BinaryOpParameter]
    of the addition, then [p], then [q], then the [ConstantParameter]
    for 2; the quotient [c] itself is not yielded.  [c.eval()] is
    [(p.val + q.val) / 2] whenever [p.val] and [q.val] read as numbers. *)
Theorem half_sum_flattening
    (fuel : nat) (s : State) (p q : addr) (op oq : ParameterObj) :
  heap s !! p = Some op -> heap s !! q = Some oq ->
  cls op = PlainParameter -> cls oq = PlainParameter ->
  (p < next s)%nat -> (q < next s)%nat ->
  exists t k c s' ot ok oc,
    half_sum fuel p q s = Ok c s' /\
    heap s' !! t = Some ot /\ cls ot = BinaryOpParameter p q Qplus /\
    heap s' !! k = Some ok /\ cls ok = ConstantParameter 2 /\
    heap s' !! c = Some oc /\ cls oc = BinaryOpParameter t k Qdiv /\
    heap s' !! p = Some op /\ heap s' !! q = Some oq /\
    (forall m, __iter__ (S (S m)) (heap s') c = Val [t; p; q; k]) /\
    (c ∉ [t; p; q; k]) /\
    (forall m pv qv,
        _get_val m (heap s') p = Val pv ->
        _get_val m (heap s') q = Val qv ->
        eval (S m) (heap s') c = Val ((pv + qv) / 2)%Q).
Proof.
  intros Hp Hq Hcp Hcq Hpn Hqn.
  set (t := next s). set (k := S (next s)). set (c := S (S (next s))).
  set (h' := half_sum_store s p q op oq).
  assert (Hc' : exists oc, h' !! c = Some oc /\
                           cls oc = BinaryOpParameter t k Qdiv)
    by (eexists; split; [apply lookup_insert_eq|reflexivity]).
  destruct Hc' as (oc & Hoc & Hcc).
  assert (Hk' : exists ok, h' !! k = Some ok /\
                           cls ok = ConstantParameter 2).
  { eexists; split;
      [unfold h', half_sum_store;
       rewrite lookup_insert_ne by (unfold k; lia); apply lookup_insert_eq
      |reflexivity]. }
  destruct Hk' as (ok & Hok & Hck).
  assert (Ht' : exists ot, h' !! t = Some ot /\
                           cls ot = BinaryOpParameter p q Qplus).
  { eexists; split;
      [unfold h', half_sum_store;
       rewrite lookup_insert_ne by (unfold t; lia);
       rewrite lookup_insert_ne by (unfold t; lia); apply lookup_insert_eq
      |reflexivity]. }
  destruct Ht' as (ot & Hot & Hct).
  assert (Hp' : h' !! p = Some op).
  { unfold h', half_sum_store. by rewrite !lookup_insert_ne by lia. }
  assert (Hq' : h' !! q = Some oq).
  { unfold h', half_sum_store. by rewrite !lookup_insert_ne by lia. }
  exists t, k, c, (mkState h' (S (S (S (next s)))) (log s)), ot, ok, oc.
  split; [by apply half_sum_eq|]. cbn [heap].
  do 8 (split; [assumption|]).
  split; [|split].
  - intros m. unfold __iter__. rewrite (deref_eq _ _ _ Hoc). cbn [rbind].
    rewrite Hcc. cbn [is_composite].
    rewrite get_parts_S, (deref_eq _ _ _ Hoc). cbn [rbind]. rewrite Hcc.
    cbn [parts_of parts_loop].
    rewrite decide_False by (unfold t, c; lia).
    rewrite (deref_eq _ _ _ Hot). cbn [rbind]. rewrite Hct.
    cbn [is_composite].
    rewrite get_parts_S, (deref_eq _ _ _ Hot). cbn [rbind]. rewrite Hct.
    cbn [parts_of parts_loop].
    rewrite decide_False by (unfold t; lia).
    rewrite (deref_eq _ _ _ Hp'). cbn [rbind]. rewrite Hcp.
    cbn [is_composite].
    rewrite decide_False by (unfold t; lia).
    rewrite (deref_eq _ _ _ Hq'). cbn [rbind]. rewrite Hcq.
    cbn [is_composite rbind app].
    rewrite decide_False by (unfold k, c; lia).
    rewrite (deref_eq _ _ _ Hok). cbn [rbind]. rewrite Hck.
    cbn [is_composite].
    rewrite get_parts_S, (deref_eq _ _ _ Hok). cbn [rbind]. rewrite Hck.
    reflexivity.
  - unfold t, k, c. set_unfold. lia.
  - intros m pv qv Hpv Hqv. unfold eval.
    rewrite (deref_eq _ _ _ Hoc). cbn [rbind]. rewrite Hcc.
    cbn [eval_with].
    rewrite get_val_S, (deref_eq _ _ _ Hot). cbn [rbind]. rewrite Hct.
    cbn [is_composite eval_with]. rewrite Hpv, Hqv. cbn [rbind].
    rewrite get_val_S, (deref_eq _ _ _ Hok). cbn [rbind]. rewrite Hck.
    reflexivity.
Qed.

Lemma half_sum_flattening_witness :
  exists t k c s' ot ok oc,
    half_sum 2 0%nat 1%nat (state_after (p_and_q 2) init_state) = Ok c s' /\
    heap s' !! t = Some ot /\
    cls ot = BinaryOpParameter 0%nat 1%nat Qplus /\
    heap s' !! k = Some ok /\ cls ok = ConstantParameter 2 /\
    heap s' !! c = Some oc /\ cls oc = BinaryOpParameter t k Qdiv /\
    heap s' !! 0%nat = Some (plain_obj "p" 2) /\
    heap s' !! 1%nat = Some (plain_obj "q" 4) /\
    (forall m, __iter__ (S (S m)) (heap s') c = Val [t; 0; 1; k]%nat) /\
    (c ∉ [t; 0; 1; k]%nat) /\
    (forall m pv qv,
        _get_val m (heap s') 0%nat = Val pv ->
        _get_val m (heap s') 1%nat = Val qv ->
        eval (S m) (heap s') c = Val ((pv + qv) / 2)%Q).
Proof.
  apply (half_sum_flattening 2 (state_after (p_and_q 2) init_state)
           0%nat 1%nat (plain_obj "p" 2) (plain_obj "q" 4)).
  - vm_compute. reflexivity.
  - vm_compute. reflexivity.
  - reflexivity.
  - reflexivity.
  - vm_compute. lia.
  - vm_compute. lia.
Defined.

(** C4 fails as stated: for [p] and [q] as above, [c = (p + q) / 2] is
    the object at address 4; iterating it yields the objects 2, 0, 1, 3.
    The first of them is the node of the addition, not the quotient;
    the quotient is not yielded at all.  The value is as claimed. *)
Lemma half_sum_counterexample :
  exists c s' first,
    (p_and_q 2 ;; half_sum 2 0%nat 1%nat)%M init_state = Ok c s' /\
    cls <$> heap s' !! c = Some (BinaryOpParameter 2%nat 3%nat Qdiv) /\
    __iter__ 2 (heap s') c = Val (first :: [0; 1; 3]%nat) /\
    cls <$> heap s' !! first = Some (BinaryOpParameter 0%nat 1%nat Qplus) /\
    first <> c /\ (c ∉ first :: [0; 1; 3]%nat) /\
    eval 2 (heap s') c = Val ((2 + 4) / 2)%Q.
Proof.
  do 3 eexists.
  split; [vm_compute; reflexivity|].
  split; [vm_compute; reflexivity|].
  split; [vm_compute; reflexivity|].
  split; [vm_compute; reflexivity|].
  split; [discriminate|].
  split; [set_unfold; lia|].
  vm_compute. reflexivity.
Qed.


(** * Further properties of the module *)

(** ** Properties kept by every setter *)

Lemma keeps_ret {A} (I : State -> Prop) (a : A) : keeps I (ret a).
Proof. intros s H. exact H. Qed.

Lemma keeps_raise {A} (I : State -> Prop) (e : exn) : keeps I (@raise A e).
Proof. intros s H. exact H. Qed.

Lemma keeps_read {A} (I : State -> Prop) (r : store -> result A) :
  keeps I (read r).
Proof. intros s H. unfold read. by destruct (r (heap s)). Qed.

Lemma keeps_bind {A B} (I : State -> Prop) (m : M A) (k : A -> M B) :
  keeps I m -> (forall a, keeps I (k a)) -> keeps I (bind m k).
Proof.
  intros Hm Hk s H. unfold bind. specialize (Hm s H).
  destruct (m s) as [a s'| | |]; try done. by apply Hk.
Qed.

Lemma keeps_run {Op} (I : State -> Prop) (step : Op -> M unit) ops :
  (forall op, keeps I (step op)) -> keeps I (run step ops).
Proof.
  intros Hs. induction ops as [|op rest IH]; simpl.
  - apply keeps_ret.
  - apply keeps_bind; [apply Hs | intros _; exact IH].
Qed.

Lemma keeps_update p (J : ParameterObj -> Prop) a f :
  (forall o, J o -> J (f o)) -> keeps (obj_inv p J) (update a f).
Proof.
  intros Hf s (o & H & HJ). unfold update.
  destruct (heap s !! a) as [oa|] eqn:Ha; [|done].
  destruct (decide (a = p)) as [->|Hne].
  - exists (f o). cbn [heap]. rewrite lookup_insert_eq.
    split; [congruence|by apply Hf].
  - exists o. cbn [heap]. by rewrite lookup_insert_ne.
Qed.

Lemma keeps_warn p (J : ParameterObj -> Prop) w : keeps (obj_inv p J) (warn w).
Proof. intros s H. exact H. Qed.

(** Decompose a setter into its primitive steps. *)
Ltac keeps_steps :=
  repeat first
    [ apply keeps_ret
    | apply keeps_raise
    | apply keeps_read
    | apply keeps_warn
    | apply keeps_bind; [|intros ?]
    | match goal with
      | |- keeps _ (if ?b then _ else _) => destruct b
      | |- keeps _ (match ?x with _ => _ end) => destruct x
      end ].

Section Keeps.
Variable p : addr.
Variable J : ParameterObj -> Prop.
Hypothesis J_link : forall l o, J o -> J (with_link l o).
Hypothesis J_val : forall x o, J o -> J (with_val x o).
Hypothesis J_default_val : forall x o, J o -> J (with_default_val x o).
Hypothesis J_limit : forall nm x o, J o -> J (setattr_limit nm x o).
Hypothesis J_guessed : forall b o, J o -> J (with_guessed b o).
Hypothesis J_frozen :
  forall self b, keeps (obj_inv p J) (_set_frozen self b).

Lemma keeps_set_link fuel self v : keeps (obj_inv p J) (_set_link fuel self v).
Proof.
  unfold _set_link, get_obj. keeps_steps;
    apply keeps_update; intros; by apply J_link.
Qed.

Lemma keeps_set_val fuel self v : keeps (obj_inv p J) (_set_val fuel self v).
Proof.
  destruct v; unfold _set_val, get_obj.
  - apply keeps_bind; [apply keeps_set_link|intros _; apply keeps_raise].
  - apply keeps_bind; [apply keeps_set_link|intros _].
    keeps_steps; apply keeps_update; intros;
      [by apply J_val|by apply J_default_val].
  - apply keeps_set_link.
Qed.

Lemma keeps_set_default_val fuel self v :
  keeps (obj_inv p J) (_set_default_val fuel self v).
Proof.
  destruct v; unfold _set_default_val, get_obj.
  - apply keeps_bind; [apply keeps_set_link|intros _; apply keeps_raise].
  - apply keeps_bind; [apply keeps_set_link|intros _].
    keeps_steps; apply keeps_update; intros; by apply J_default_val.
  - apply keeps_set_link.
Qed.

Lemma keeps_set_limit fuel nm self v :
  keeps (obj_inv p J) (_set_limit fuel nm self v).
Proof.
  unfold _set_limit, get_obj.
  apply keeps_bind; [apply keeps_read|intros o].
  destruct (Qltb _ _); [apply keeps_raise|].
  destruct (Qgtb _ _); [apply keeps_raise|].
  apply keeps_bind;
    [|intros _; apply keeps_update; intros; by apply J_limit].
  destruct (initialized o); [|apply keeps_ret].
  apply keeps_bind; [|intros _].
  - destruct nm; try apply keeps_ret.
    apply keeps_bind; [apply keeps_read|intros cur].
    destruct (Qgtb _ _); [|apply keeps_ret].
    apply keeps_bind; [apply keeps_set_val|intros _]. keeps_steps.
  - destruct nm; try apply keeps_ret.
    apply keeps_bind; [apply keeps_read|intros cur].
    destruct (Qltb _ _); [|apply keeps_ret].
    apply keeps_bind; [apply keeps_set_val|intros _]. keeps_steps.
Qed.

Lemma keeps_reset fuel self : keeps (obj_inv p J) (Parameter_reset fuel self).
Proof.
  unfold Parameter_reset, get_obj.
  apply keeps_bind; [apply keeps_read|intros o].
  apply keeps_bind; [|intros _].
  - destruct (_guessed o); [|apply keeps_ret].
    apply keeps_bind; [|intros _; apply keeps_bind; [|intros _]];
      apply keeps_update; intros o' Ho'.
    + by apply (J_limit L_min).
    + by apply (J_limit L_max).
    + by apply J_guessed.
  - apply keeps_bind; [apply keeps_read|intros d].
    apply keeps_update. intros. by apply J_val.
Qed.

Lemma keeps_when_given {A} (arg : option A) cond self k :
  (forall x, keeps (obj_inv p J) (k x)) ->
  keeps (obj_inv p J) (when_given arg cond self k).
Proof.
  intros Hk. destruct arg as [x|]; simpl; [|apply keeps_ret].
  unfold get_obj. apply keeps_bind; [apply keeps_read|intros o].
  destruct (cond x o); [apply Hk|apply keeps_ret].
Qed.

Lemma keeps_set fuel self v mi ma fr dv dmi dma :
  keeps (obj_inv p J) (Parameter_set fuel self v mi ma fr dv dmi dma).
Proof.
  unfold Parameter_set.
  repeat (apply keeps_bind; [|intros _]);
    try (apply keeps_when_given; intros; apply keeps_set_limit).
  - destruct v; [apply keeps_ret|apply keeps_set_val ..].
  - destruct dv; [apply keeps_ret|apply keeps_set_default_val ..].
  - destruct mi; [apply keeps_set_limit|apply keeps_ret].
  - destruct ma; [apply keeps_set_limit|apply keeps_ret].
  - destruct dmi; [apply keeps_set_limit|apply keeps_ret].
  - destruct dma; [apply keeps_set_limit|apply keeps_ret].
  - destruct fr; [apply J_frozen|apply keeps_ret].
Qed.

Lemma keeps_perform fuel self op :
  keeps (obj_inv p J) (perform fuel self op).
Proof.
  destruct op; simpl;
    first [apply keeps_set_val | apply keeps_set_limit
          | apply keeps_set_default_val | apply keeps_set
          | apply keeps_reset].
Qed.

Lemma keeps_act fuel a : keeps (obj_inv p J) (act fuel a).
Proof.
  destruct a; simpl.
  - apply keeps_perform.
  - apply keeps_set_val.
  - apply keeps_set_default_val.
  - apply keeps_set_link.
  - apply keeps_set_link.
  - apply J_frozen.
  - apply J_frozen.
  - apply J_frozen.
Qed.
End Keeps.

Lemma fixed_frozen p o self b :
  keeps (obj_inv p (fun o' => fixed_attributes o' = fixed_attributes o))
        (_set_frozen self b).
Proof.
  unfold _set_frozen, get_obj. keeps_steps.
  apply keeps_update. intros o' Ho'. exact Ho'.
Qed.

(** X1.  Whatever a session does to any of its parameters (numeric
    operations, assignments of any value to [val], [default_val] and
    [link], [unlink], [freeze], [thaw]), the class, the names, the hard
    limits, the units, the always-frozen flag, the hidden flag and the
    aliases of a parameter stay as they are; also when the session ends
    in an exception. *)
Theorem fixed_attributes_never_change
    (fuel : nat) (p : addr) (o : ParameterObj) (acts : list action)
    (s s' : State) :
  heap s !! p = Some o ->
  run (act fuel) acts s = Ok tt s' \/
  (exists e, run (act fuel) acts s = Raise e s') ->
  exists o',
    heap s' !! p = Some o' /\
    cls o' = cls o /\ modelname o' = modelname o /\ name o' = name o /\
    fullname o' = fullname o /\
    _hard_min o' = _hard_min o /\ _hard_max o' = _hard_max o /\
    units o' = units o /\ _alwaysfrozen o' = _alwaysfrozen o /\
    hidden o' = hidden o /\ aliases o' = aliases o.
Proof.
  intros H Hrun.
  assert (Hk : keeps (obj_inv p (fun o' => fixed_attributes o'
                                           = fixed_attributes o))
                     (run (act fuel) acts)).
  { apply keeps_run. intros a. apply keeps_act; try (intros; assumption).
    - intros nm x o' Ho'. by destruct nm.
    - intros. apply fixed_frozen. }
  specialize (Hk s (ex_intro _ o (conj H eq_refl))).
  assert (Hs' : obj_inv p (fun o' => fixed_attributes o' = fixed_attributes o)
                        s').
  { destruct Hrun as [Hr|[e Hr]]; by rewrite Hr in Hk. }
  destruct Hs' as (o' & Ho' & Hfix). exists o'. split; [exact Ho'|].
  unfold fixed_attributes in Hfix. injection Hfix as -> -> -> -> -> -> -> -> -> ->.
  repeat split.
Qed.

Lemma fixed_attributes_never_change_witness :
  exists o',
    heap (state_after
            (run (act 3) [ActOp 1%nat (OpMax 6); ActThaw 1%nat;
                          ActLink 0%nat (PyPar 1%nat); ActUnlink 1%nat])
            linked_state) !! 1%nat = Some o' /\
    cls o' = cls b_linked /\ modelname o' = modelname b_linked /\
    name o' = name b_linked /\ fullname o' = fullname b_linked /\
    _hard_min o' = _hard_min b_linked /\ _hard_max o' = _hard_max b_linked /\
    units o' = units b_linked /\
    _alwaysfrozen o' = _alwaysfrozen b_linked /\
    hidden o' = hidden b_linked /\ aliases o' = aliases b_linked.
Proof.
  apply (fixed_attributes_never_change 3 1%nat b_linked
           [ActOp 1%nat (OpMax 6); ActThaw 1%nat;
            ActLink 0%nat (PyPar 1%nat); ActUnlink 1%nat] linked_state).
  - vm_compute. reflexivity.
  - left. vm_compute. reflexivity.
Defined.

Lemma always_frozen_set_frozen p fn self b :
  keeps (obj_inv p (fun o => _alwaysfrozen o = true /\ _frozen o = true /\
                             fullname o = fn))
        (_set_frozen self b).
Proof.
  intros s (o & H & Haf & Hfr & Hfn). unfold _set_frozen, bind, get_obj, read.
  unfold deref. destruct (heap s !! self) as [os|] eqn:Hs; [|done].
  destruct (decide (self = p)) as [->|Hne].
  - assert (os = o) as -> by congruence. rewrite Haf.
    destruct b; simpl.
    + rewrite (update_eq _ _ _ _ H). exists (with_frozen true o).
      by rewrite put_lookup.
    + by exists o.
  - destruct (_alwaysfrozen os && negb b); [by exists o|].
    rewrite (update_eq _ _ _ _ Hs). exists o.
    unfold put; cbn [heap]. by rewrite lookup_insert_ne.
Qed.

(** X2.  A parameter constructed with [alwaysfrozen=True] reads as
    frozen after any session, whatever the [frozen] argument of the
    constructor was; [thaw()] raises [ParameterErr("alwaysfrozen",
    fullname)] and an assignment of any parameter to its [link] raises
    [ParameterErr("frozennolink", fullname)], both leaving the state as it
    is. *)
Theorem always_frozen_stays_frozen
    (k fuel : nat) (s : State) (mn nm : string) (x mi ma hmi hma : Q)
    (un : string) (fr hid : bool) (al : option (list string))
    (p : addr) (s0 : State) (acts : list action) (s' : State) :
  new_Parameter k mn nm (PyNum x) mi ma hmi hma un fr true hid al s
  = Ok p s0 ->
  run (act fuel) acts s0 = Ok tt s' \/
  (exists e, run (act fuel) acts s0 = Raise e s') ->
  _get_frozen (heap s') p = Val true /\
  thaw p s' = Raise (ParameterErr "alwaysfrozen" [AStr (mn ++ "." ++ nm)]) s'
  /\
  forall e,
    _set_link fuel p (PyPar e) s'
    = Raise (ParameterErr "frozennolink" [AStr (mn ++ "." ++ nm)]) s'.
Proof.
  intros Hnew Hrun.
  pose proof (new_Parameter_num k s mn nm x mi ma hmi hma un fr true hid al)
    as Hc.
  rewrite Hnew in Hc. destruct Hc as (-> & -> & _).
  set (J := fun o => _alwaysfrozen o = true /\ _frozen o = true /\
                     fullname o = mn ++ "." ++ nm).
  assert (Hk : keeps (obj_inv (next s) J) (run (act fuel) acts)).
  { apply keeps_run. intros a. apply keeps_act; try (intros; assumption).
    - intros nm' x' o' Ho'. by destruct nm'.
    - intros. apply always_frozen_set_frozen. }
  match type of Hrun with
  | run _ _ ?s1 = _ \/ _ =>
      assert (H0 : obj_inv (next s) J s1)
        by (eexists; split; [apply lookup_insert_eq|by repeat split])
  end.
  specialize (Hk _ H0).
  assert (Hs' : obj_inv (next s) J s').
  { destruct Hrun as [Hr|[e Hr]]; by rewrite Hr in Hk. }
  destruct Hs' as (o' & Ho' & Haf & Hfr & Hfn).
  split; [|split].
  - unfold _get_frozen. rewrite (deref_eq _ _ _ Ho'). simpl.
    rewrite Hfr. by destruct (_link o').
  - unfold thaw, _set_frozen, bind. rewrite (get_obj_eq _ _ _ Ho'), Haf.
    simpl. by rewrite Hfn.
  - intros e. unfold _set_link, bind.
    rewrite (get_obj_eq _ _ _ Ho'), Haf. by rewrite Hfn.
Qed.

Lemma always_frozen_stays_frozen_witness :
  _get_frozen
    (heap (state_after
             (run (act 1) [ActThaw 0%nat; ActOp 0%nat (OpVal 4);
                           ActFrozen 0%nat false])
             (state_after
                (new_Parameter 1 "m" "p" (PyNum 1) 0 10 (- hugeval) hugeval ""
                   false true false None) init_state))) 0%nat = Val true /\
  thaw 0%nat
    (state_after
       (run (act 1) [ActThaw 0%nat; ActOp 0%nat (OpVal 4);
                     ActFrozen 0%nat false])
       (state_after
          (new_Parameter 1 "m" "p" (PyNum 1) 0 10 (- hugeval) hugeval ""
             false true false None) init_state))
  = Raise (ParameterErr "alwaysfrozen" [AStr ("m" ++ "." ++ "p")])
      (state_after
         (run (act 1) [ActThaw 0%nat; ActOp 0%nat (OpVal 4);
                       ActFrozen 0%nat false])
         (state_after
            (new_Parameter 1 "m" "p" (PyNum 1) 0 10 (- hugeval) hugeval ""
               false true false None) init_state)) /\
  forall e,
    _set_link 1 0%nat (PyPar e)
      (state_after
         (run (act 1) [ActThaw 0%nat; ActOp 0%nat (OpVal 4);
                       ActFrozen 0%nat false])
         (state_after
            (new_Parameter 1 "m" "p" (PyNum 1) 0 10 (- hugeval) hugeval ""
               false true false None) init_state))
    = Raise (ParameterErr "frozennolink" [AStr ("m" ++ "." ++ "p")])
        (state_after
           (run (act 1) [ActThaw 0%nat; ActOp 0%nat (OpVal 4);
                         ActFrozen 0%nat false])
           (state_after
              (new_Parameter 1 "m" "p" (PyNum 1) 0 10 (- hugeval) hugeval ""
                 false true false None) init_state)).
Proof.
  apply (always_frozen_stays_frozen 1 1 init_state "m" "p" 1 0 10 (- hugeval)
           hugeval "" false false None 0%nat
           (state_after
              (new_Parameter 1 "m" "p" (PyNum 1) 0 10 (- hugeval) hugeval ""
                 false true false None) init_state)
           [ActThaw 0%nat; ActOp 0%nat (OpVal 4); ActFrozen 0%nat false]).
  - vm_compute. reflexivity.
  - right. eexists. vm_compute. reflexivity.
Defined.

(** ** Failing setters *)

(** X3.  A [link] assignment that raises has changed nothing, whatever
    the value assigned: every check of the setter comes before its first
    write. *)
Theorem failed_link_assignment_changes_nothing
    (fuel : nat) (p : addr) (v : pyval) (s : State) (e : exn) (s' : State) :
  _set_link fuel p v s = Raise e s' -> s' = s.
Proof.
  unfold _set_link, bind, get_obj, read, update, raise, ret.
  intros H. repeat case_match; simplify_eq; done.
Qed.

Lemma failed_link_assignment_changes_nothing_witness :
  state_after (_set_link 3 1%nat (PyNum 5)) linked_state = linked_state.
Proof.
  apply (failed_link_assignment_changes_nothing 3 1%nat (PyNum 5)
           linked_state (ParameterErr "notlink" [])).
  vm_compute. reflexivity.
Defined.

(** X4.  Assigning a limit ([min], [max], [default_min] or
    [default_max]) below the hard minimum or above the hard maximum
    raises the [edge] error that names the hard limit and carries it, for
    every parameter, linked or not, during construction or after; the
    state is unchanged. *)
Theorem limit_outside_hard_limits_rejected
    (fuel : nat) (nm : limit_name) (p : addr) (o : ParameterObj) (v : Q)
    (s : State) :
  heap s !! p = Some o ->
  (v < _hard_min o \/ _hard_max o < v)%Q ->
  _set_limit fuel nm p v s =
  Raise (if Qltb v (_hard_min o)
         then edge o "hard minimum" (_hard_min o)
         else edge o "hard maximum" (_hard_max o)) s.
Proof.
  intros H Hout. unfold _set_limit, bind, SherpaFloat.
  rewrite (get_obj_eq _ _ _ H).
  destruct (Qltb v (_hard_min o)) eqn:E1; [reflexivity|].
  destruct (Qgtb v (_hard_max o)) eqn:E2; [reflexivity|].
  order_facts. destruct Hout as [Hlt|Hlt];
    [destruct (Qlt_not_le _ _ Hlt E1)|destruct (Qlt_not_le _ _ Hlt E2)].
Qed.

Lemma limit_outside_hard_limits_rejected_witness :
  _set_limit 0 L_default_max 1%nat (2 * hugeval) linked_state =
  Raise (if Qltb (2 * hugeval) (_hard_min b_linked)
         then edge b_linked "hard minimum" (_hard_min b_linked)
         else edge b_linked "hard maximum" (_hard_max b_linked))
        linked_state.
Proof.
  apply (limit_outside_hard_limits_rejected 0 L_default_max 1%nat b_linked
           (2 * hugeval) linked_state).
  - vm_compute. reflexivity.
  - right. vm_compute. reflexivity.
Defined.

(** ** Freezing and linking *)

(** A successful assignment of a parameter to [link]: the object ends
    with the link stored and is otherwise as before. *)
Lemma set_link_ok fuel p e o s s1 :
  heap s !! p = Some o ->
  _set_link fuel p (PyPar e) s = Ok tt s1 ->
  heap s1 !! p = Some (with_link (Some e) o) /\ _alwaysfrozen o = false.
Proof.
  intros H. unfold _set_link, bind. rewrite (get_obj_eq _ _ _ H).
  destruct (_alwaysfrozen o); [discriminate|].
  unfold read. destruct (contains fuel (heap s) p e) as [[]| | |];
    try discriminate.
  destruct (link_walk fuel fuel (heap s) p (Some e) false) as [[]| | |];
    try discriminate.
  - unfold update at 1.
    destruct (heap s !! e) as [oe|] eqn:He; [|discriminate].
    unfold update. cbn [heap].
    destruct (decide (e = p)) as [->|Hne].
    + rewrite lookup_insert_eq. intros [= <-]. cbn [heap].
      rewrite lookup_insert_eq. assert (oe = o) as -> by congruence. done.
    + rewrite lookup_insert_ne by done. rewrite H. intros [= <-]. cbn [heap].
      by rewrite lookup_insert_eq.
  - unfold ret. rewrite (update_eq _ _ _ _ H). intros [= <-].
    by rewrite put_lookup.
Qed.

(** X5.  After a successful [p.link = e] the parameter reads as frozen,
    whatever its stored flag; [thaw()] succeeds but the parameter still
    reads as frozen while the link is set, and after [unlink()] it reads
    as thawed.  Unlinking without the [thaw()] gives back the flag the
    parameter had before it was linked. *)
Theorem linked_parameter_reads_frozen
    (fuel : nat) (s : State) (p e : addr) (o : ParameterObj) (s1 : State) :
  heap s !! p = Some o ->
  _set_link fuel p (PyPar e) s = Ok tt s1 ->
  _get_frozen (heap s1) p = Val true /\
  (exists s2 s3,
      thaw p s1 = Ok tt s2 /\ _get_frozen (heap s2) p = Val true /\
      unlink fuel p s2 = Ok tt s3 /\ _get_frozen (heap s3) p = Val false) /\
  (exists s2,
      unlink fuel p s1 = Ok tt s2 /\
      _get_frozen (heap s2) p = Val (_frozen o)).
Proof.
  intros H Hset. destruct (set_link_ok _ _ _ _ _ _ H Hset) as [H1 Haf].
  split; [|split].
  - unfold _get_frozen. by rewrite (deref_eq _ _ _ H1).
  - eexists. eexists. split.
    { unfold thaw, _set_frozen, bind. rewrite (get_obj_eq _ _ _ H1).
      obj_simpl. rewrite Haf. simpl. apply (update_eq _ _ _ _ H1). }
    split.
    { unfold _get_frozen. by rewrite (deref_eq _ _ _ (put_lookup _ _ _)). }
    split.
    { unfold unlink. apply set_link_None_eq, put_lookup. }
    unfold _get_frozen. by rewrite (deref_eq _ _ _ (put_lookup _ _ _)).
  - eexists. split.
    { unfold unlink. by apply set_link_None_eq. }
    unfold _get_frozen. by rewrite (deref_eq _ _ _ (put_lookup _ _ _)).
Qed.

Lemma linked_parameter_reads_frozen_witness :
  _get_frozen (heap linked_state) 1%nat = Val true /\
  (exists s2 s3,
      thaw 1%nat linked_state = Ok tt s2 /\
      _get_frozen (heap s2) 1%nat = Val true /\
      unlink 3 1%nat s2 = Ok tt s3 /\
      _get_frozen (heap s3) 1%nat = Val false) /\
  (exists s2,
      unlink 3 1%nat linked_state = Ok tt s2 /\
      _get_frozen (heap s2) 1%nat
      = Val (_frozen (plain_obj_minmax "b" 1 0 20))).
Proof.
  apply (linked_parameter_reads_frozen 3
           (state_after
              (new_Parameter_default 3 "m" "a" 2 ;;
               new_Parameter_minmax 3 "m" "b" 1 0 20 ;;
               __rsub__ 3 0%nat (PyNum 10))%M init_state)
           1%nat 3%nat (plain_obj_minmax "b" 1 0 20) linked_state).
  - vm_compute. reflexivity.
  - vm_compute. reflexivity.
Defined.

(** ** Operations on one parameter leave the others alone *)

Lemma only_at_ret {A} q (a : A) : only_at q (ret a).
Proof. intros s. done. Qed.

Lemma only_at_raise {A} q (e : exn) : only_at q (@raise A e).
Proof. intros s. done. Qed.

Lemma only_at_read {A} q (r : store -> result A) : only_at q (read r).
Proof. intros s. unfold read. by destruct (r (heap s)). Qed.

Lemma only_at_warn q w : only_at q (warn w).
Proof. intros s. done. Qed.

Lemma only_at_update q f : only_at q (update q f).
Proof.
  intros s. unfold update. destruct (heap s !! q); [|done]. cbn [heap next].
  split; [|done]. intros a Ha. by rewrite lookup_insert_ne.
Qed.

Lemma only_at_bind {A B} q (m : M A) (k : A -> M B) :
  only_at q m -> (forall a, only_at q (k a)) -> only_at q (bind m k).
Proof.
  intros Hm Hk s. unfold bind. specialize (Hm s).
  destruct (m s) as [a s1|e s1| |]; try done.
  destruct Hm as [Hm1 Hm2]. specialize (Hk a s1).
  destruct (k a s1) as [b s2|e s2| |]; try done;
    destruct Hk as [Hk1 Hk2]; (split; [|congruence]);
    intros a' Ha'; by rewrite Hk1, Hm1.
Qed.

Ltac only_at_steps :=
  repeat first
    [ apply only_at_ret
    | apply only_at_raise
    | apply only_at_read
    | apply only_at_warn
    | apply only_at_update
    | apply only_at_bind; [|intros ?]
    | match goal with
      | |- only_at _ (if ?b then _ else _) => destruct b
      | |- only_at _ (match ?x with _ => _ end) => destruct x
      end ].

Lemma only_at_set_val fuel q x : only_at q (_set_val fuel q (PyNum x)).
Proof. unfold _set_val, _set_link, get_obj. only_at_steps. Qed.

Lemma only_at_set_default_val fuel q x :
  only_at q (_set_default_val fuel q (PyNum x)).
Proof. unfold _set_default_val, _set_link, get_obj. only_at_steps. Qed.

Lemma only_at_set_limit fuel nm q x : only_at q (_set_limit fuel nm q x).
Proof.
  unfold _set_limit, get_obj.
  apply only_at_bind; [apply only_at_read|intros o].
  destruct (Qltb _ _); [apply only_at_raise|].
  destruct (Qgtb _ _); [apply only_at_raise|].
  apply only_at_bind; [|intros _; apply only_at_update].
  destruct (initialized o); [|apply only_at_ret].
  apply only_at_bind; [|intros _].
  - destruct nm; try apply only_at_ret.
    apply only_at_bind; [apply only_at_read|intros cur].
    destruct (Qgtb _ _); [|apply only_at_ret].
    apply only_at_bind; [apply only_at_set_val|intros _]. only_at_steps.
  - destruct nm; try apply only_at_ret.
    apply only_at_bind; [apply only_at_read|intros cur].
    destruct (Qltb _ _); [|apply only_at_ret].
    apply only_at_bind; [apply only_at_set_val|intros _]. only_at_steps.
Qed.

Lemma only_at_set_frozen q b : only_at q (_set_frozen q b).
Proof. unfold _set_frozen, get_obj. only_at_steps. Qed.

Lemma only_at_reset fuel q : only_at q (Parameter_reset fuel q).
Proof. unfold Parameter_reset, get_obj. only_at_steps. Qed.

Lemma only_at_when_given {A} q (arg : option A) cond k :
  (forall x, only_at q (k x)) -> only_at q (when_given arg cond q k).
Proof.
  intros Hk. destruct arg as [x|]; simpl; [|apply only_at_ret].
  unfold get_obj. apply only_at_bind; [apply only_at_read|intros o].
  destruct (cond x o); [apply Hk|apply only_at_ret].
Qed.

Lemma only_at_perform fuel q op : only_at q (perform fuel q op).
Proof.
  destruct op; simpl;
    try first [apply only_at_set_val | apply only_at_set_limit
              | apply only_at_set_default_val | apply only_at_reset].
  unfold Parameter_set.
  repeat (apply only_at_bind; [|intros _]);
    try (apply only_at_when_given; intros; apply only_at_set_limit).
  - destruct val; [apply only_at_set_val|apply only_at_ret].
  - destruct default_val; [apply only_at_set_default_val|apply only_at_ret].
  - destruct min; [apply only_at_set_limit|apply only_at_ret].
  - destruct max; [apply only_at_set_limit|apply only_at_ret].
  - destruct default_min; [apply only_at_set_limit|apply only_at_ret].
  - destruct default_max; [apply only_at_set_limit|apply only_at_ret].
  - destruct frozen; [apply only_at_set_frozen|apply only_at_ret].
Qed.

Lemma only_at_run {Op} q (step : Op -> M unit) ops :
  (forall op, only_at q (step op)) -> only_at q (run step ops).
Proof.
  intros Hs. induction ops as [|op rest IH]; simpl.
  - apply only_at_ret.
  - apply only_at_bind; [apply Hs | intros _; exact IH].
Qed.

(** X6.  Numeric assignments to the attributes of a parameter [q], its
    [set] with numeric arguments and its [reset] write no other object
    of the session and create none, however [q] or the others are
    linked, and also when an operation raises: the auto-repair and the
    link reset act on [q] alone. *)
Theorem numeric_operations_touch_one_parameter
    (fuel : nat) (q : addr) (ops : list operation) (s s' : State)
    (a : addr) :
  run (perform fuel q) ops s = Ok tt s' \/
  (exists e, run (perform fuel q) ops s = Raise e s') ->
  a <> q ->
  heap s' !! a = heap s !! a /\ next s' = next s.
Proof.
  intros Hrun Ha.
  pose proof (only_at_run q (perform fuel q) ops (only_at_perform fuel q) s)
    as Hk.
  destruct Hrun as [Hr|[e Hr]]; rewrite Hr in Hk; destruct Hk as [Hk1 Hk2];
    (split; [by apply Hk1|exact Hk2]).
Qed.

Lemma numeric_operations_touch_one_parameter_witness :
  heap (state_after
          (run (perform 3 1%nat) [OpMax 6; OpReset; OpVal 100])
          linked_state) !! 0%nat = heap linked_state !! 0%nat /\
  next (state_after
          (run (perform 3 1%nat) [OpMax 6; OpReset; OpVal 100])
          linked_state) = next linked_state.
Proof.
  apply (numeric_operations_touch_one_parameter 3 1%nat
           [OpMax 6; OpReset; OpVal 100] linked_state).
  - right. eexists. vm_compute. reflexivity.
  - discriminate.
Defined.

(** ** Construction *)


(** ** [set] *)

(** A limit assignment past which the value does not lie only stores
    the limit. *)
Lemma set_limit_no_repair n nm s p o v :
  heap s !! p = Some o -> cls o = PlainParameter -> _link o = None ->
  (_hard_min o <= v)%Q -> (v <= _hard_max o)%Q ->
  repair_fires nm v (_val o) = false ->
  _set_limit (S n) nm p v s = Ok tt (put s p (setattr_limit nm v o)).
Proof.
  intros H Hc Hl Hh1 Hh2 Hf.
  rewrite (set_limit_eq _ _ _ _ _ _ _ H Hc (get_val_stored _ _ _ _ H Hc Hl)).
  apply Qltb_ge in Hh1. apply Qgtb_le in Hh2.
  by rewrite Hh1, Hh2, Hf, andb_false_r.
Qed.

(** X8.  On a fully constructed plain parameter without a link that
    satisfies [hard_min <= min <= val <= max <= hard_max],
    [p.set(val=v, min=mi, max=ma)] with
    [hard_min <= mi <= v <= ma <= hard_max] succeeds whatever the old
    soft limits were: afterwards [val] and [default_val] are [v], [min] is
    [mi], [max] is [ma], nothing is logged and the other attributes are
    as before.  The plain assignment [p.val = v] raises when [v] is
    above the old maximum. *)
Theorem set_moves_value_and_limits_together
    (n : nat) (s : State) (p : addr) (o : ParameterObj) (v mi ma : Q) :
  heap s !! p = Some o ->
  cls o = PlainParameter -> _link o = None -> initialized o = true ->
  bound_invariant o ->
  (_hard_min o <= mi /\ mi <= v /\ v <= ma /\ ma <= _hard_max o)%Q ->
  Parameter_set (S n) p (PyNum v) (Some mi) (Some ma) None PyNone None None s
  = Ok tt (put s p (with_max ma (with_min mi
                      (with_default_val v (with_val v o))))) /\
  ((_max o < v)%Q ->
   _set_val (S n) p (PyNum v) s = Raise (edge o "maximum" (_max o)) s).
Proof.
  intros H Hc Hl Hi (Hb1 & Hb2 & Hb3 & Hb4) (Hv1 & Hv2 & Hv3 & Hv4).
  split.
  - unfold Parameter_set, when_given, bind, ret.
    rewrite (get_obj_eq _ _ _ H).
    (* widen the ceiling *)
    set (o1 := if Qgtb ma (_max o) then with_max ma o else o).
    assert (H1 : (if Qgtb ma (_max o) then _set_limit (S n) L_max p ma
                  else fun s => Ok tt s) s = Ok tt (put s p o1)).
    { unfold o1. destruct (Qgtb ma (_max o)) eqn:E; [|by rewrite put_same].
      apply (set_limit_no_repair n L_max); try done; try lra.
      simpl. apply Qltb_ge. order_facts. lra. }
    rewrite H1. rewrite (get_obj_eq _ _ _ (put_lookup _ _ _)).
    assert (Ho1 : cls o1 = PlainParameter /\ _link o1 = None /\
                  _val o1 = _val o /\ _hard_min o1 = _hard_min o /\
                  _hard_max o1 = _hard_max o /\ _min o1 = _min o /\
                  (ma <= _max o1)%Q /\ initialized o1 = true)
      by (unfold o1; destruct (Qgtb ma (_max o)) eqn:E; order_facts;
          obj_simpl; repeat split; try done; lra).
    destruct Ho1 as (Hc1 & Hl1 & Hval1 & Hhmi1 & Hhma1 & Hmin1 & Hma1 & Hi1).
    (* widen the floor *)
    set (o2 := if Qltb mi (_min o1) then with_min mi o1 else o1).
    assert (H2 : (if Qltb mi (_min o1) then _set_limit (S n) L_min p mi
                  else fun s => Ok tt s) (put s p o1) = Ok tt (put s p o2)).
    { unfold o2. destruct (Qltb mi (_min o1)) eqn:E; [|reflexivity].
      order_facts.
      rewrite (set_limit_no_repair n L_min (put s p o1) p o1 mi
                 (put_lookup _ _ _) Hc1 Hl1).
      - by rewrite put_put.
      - rewrite Hhmi1. lra.
      - rewrite Hhma1. lra.
      - simpl. apply Qgtb_le. rewrite Hval1. rewrite Hmin1 in E. lra. }
    rewrite H2.
    assert (Ho2 : cls o2 = PlainParameter /\ _link o2 = None /\
                  _hard_min o2 = _hard_min o /\ _hard_max o2 = _hard_max o /\
                  (_min o2 <= mi)%Q /\ (ma <= _max o2)%Q /\
                  initialized o2 = true).
    { unfold o2. destruct (Qltb mi (_min o1)) eqn:E; order_facts;
        obj_simpl; repeat split; try done; lra. }
    destruct Ho2 as (Hc2 & Hl2 & Hhmi2 & Hhma2 & Hmin2 & Hmax2 & Hi2).
    (* place the value *)
    rewrite (set_val_num_eq _ _ _ _ _ (put_lookup _ _ _)), put_put.
    assert (E1 : Qltb v (_min o2) = false) by (apply Qltb_ge; lra).
    assert (E2 : Qgtb v (_max o2) = false) by (apply Qgtb_le; lra).
    rewrite E1, E2.
    (* narrow the limits *)
    cbv beta iota. rewrite ?put_put.
    set (o3 := with_default_val v (with_val v (with_link None o2))).
    rewrite (set_limit_no_repair n L_min (put s p o3) p o3 mi
               (put_lookup _ _ _) Hc2 eq_refl);
      [|unfold o3; obj_simpl; rewrite Hhmi2; lra
       |unfold o3; obj_simpl; rewrite Hhma2; lra
       |simpl; by apply Qgtb_le].
    rewrite put_put. cbv beta iota.
    rewrite (set_limit_no_repair n L_max (put s p (setattr_limit L_min mi o3))
               p (with_min mi o3) ma (put_lookup _ _ _) Hc2 eq_refl);
      [|unfold o3; obj_simpl; rewrite Hhmi2; lra
       |unfold o3; obj_simpl; rewrite Hhma2; lra
       |simpl; by apply Qltb_ge].
    rewrite put_put. do 2 f_equal.
    unfold o3, o2, o1.
    destruct (Qgtb ma (_max o)), (Qltb mi _); destruct o; simpl in *;
      subst; reflexivity.
  - intros Hgt. rewrite (set_val_num_eq _ _ _ _ _ H).
    assert (E1 : Qltb v (_min o) = false) by (apply Qltb_ge; lra).
    apply Qgtb_gt in Hgt. rewrite E1, Hgt.
    by rewrite (with_link_same _ Hl), (put_same _ _ _ H).
Qed.

Lemma set_moves_value_and_limits_together_witness :
  Parameter_set 1 0%nat (PyNum 20) (Some 8%Q) (Some 30%Q) None PyNone None
    None (state_after (new_Parameter_minmax 1 "m" "p" 5 0 10) init_state)
  = Ok tt (put (state_after (new_Parameter_minmax 1 "m" "p" 5 0 10)
                  init_state) 0%nat
             (with_max 30 (with_min 8
                (with_default_val 20 (with_val 20 p_5_0_10))))) /\
  ((_max p_5_0_10 < 20)%Q ->
   _set_val 1 0%nat (PyNum 20)
     (state_after (new_Parameter_minmax 1 "m" "p" 5 0 10) init_state)
   = Raise (edge p_5_0_10 "maximum" (_max p_5_0_10))
       (state_after (new_Parameter_minmax 1 "m" "p" 5 0 10) init_state)).
Proof.
  apply (set_moves_value_and_limits_together 0
           (state_after (new_Parameter_minmax 1 "m" "p" 5 0 10) init_state)
           0%nat p_5_0_10 20 8 30).
  - vm_compute. reflexivity.
  - reflexivity.
  - reflexivity.
  - reflexivity.
  - repeat split; vm_compute; discriminate.
  - repeat split; vm_compute; discriminate.
Defined.

(** ** Constants and operators *)

(** X9.  [ConstantParameter(x)] succeeds for every number [x]: the
    value of a constant is not checked against any limit.  Its [val]
    reads back [x], although the stored [_val] is the 0.0 of the
    composite constructor; it has no link and iterating it yields
    nothing.  [wrapobj] builds such a constant from a number and passes
    a parameter through without touching the state. *)
Theorem constant_reads_back (fuel : nat) (x : Q) (s : State) :
  exists c s' o,
    new_ConstantParameter fuel x s = Ok c s' /\
    wrapobj fuel (PyNum x) s = Ok c s' /\
    (forall a, wrapobj fuel (PyPar a) s = Ok a s) /\
    heap s' !! c = Some o /\
    cls o = ConstantParameter x /\ _val o = 0%Q /\ _link o = None /\
    (forall m, _get_val (S m) (heap s') c = Val x) /\
    (forall m, eval m (heap s') c = Val x) /\
    (forall m, __iter__ (S m) (heap s') c = Val []).
Proof.
  do 3 eexists. split; [apply new_ConstantParameter_eq|].
  split; [apply new_ConstantParameter_eq|]. split; [reflexivity|].
  cbn [heap]. split; [apply lookup_insert_eq|].
  split; [reflexivity|]. split; [reflexivity|]. split; [reflexivity|].
  split; [|split]; intros m.
  - by rewrite get_val_S, (deref_eq _ _ _ (lookup_insert_eq _ _ _)).
  - unfold eval. by rewrite (deref_eq _ _ _ (lookup_insert_eq _ _ _)).
  - unfold __iter__. rewrite (deref_eq _ _ _ (lookup_insert_eq _ _ _)).
    cbn [rbind composite_obj with_fullname cls constructed blank is_composite].
    by rewrite get_parts_S, (deref_eq _ _ _ (lookup_insert_eq _ _ _)).
Qed.

(** More fuel does not change a value that was read. *)
Lemma eval_with_mono (g g' : addr -> result Q) c v :
  (forall a w, g a = Val w -> g' a = Val w) ->
  eval_with g c = Val v -> eval_with g' c = Val v.
Proof.
  intros Hg. destruct c; simpl; try done.
  - destruct (g arg) as [w| | |] eqn:E; try done. by rewrite (Hg _ _ E).
  - destruct (g lhs) as [w| | |] eqn:E; try done. rewrite (Hg _ _ E). simpl.
    destruct (g rhs) as [w'| | |] eqn:E'; try done. by rewrite (Hg _ _ E').
Qed.

Lemma get_val_mono n (h : store) :
  forall a v, _get_val n h a = Val v -> _get_val (S n) h a = Val v.
Proof.
  induction n as [|n IH]; intros a v; [done|].
  rewrite (get_val_S (S n)), (get_val_S n).
  destruct (deref h a) as [o| | |]; try done. cbn [rbind].
  destruct (is_composite (cls o)); [by apply eval_with_mono|].
  destruct (_link o) as [l|]; [|done].
  destruct (_get_val n h l) as [w| | |] eqn:E; try done.
  by rewrite (IH _ _ E).
Qed.

Lemma new_UnaryOpParameter_eq fuel s arg ao op opstr :
  heap s !! arg = Some ao -> arg <> next s ->
  new_UnaryOpParameter fuel arg op opstr s
  = Ok (next s)
       (mkState (<[next s := composite_obj (UnaryOpParameter arg op)
                               (opstr ++ "(" ++ fullname ao ++ ")")]> (heap s))
                (S (next s)) (log s)).
Proof.
  intros Ha Hne. unfold new_UnaryOpParameter.
  unfold bind at 1. unfold alloc.
  set (s1 := mkState _ _ _).
  assert (Ha1 : heap s1 !! arg = Some ao)
    by (unfold s1; simpl; by rewrite lookup_insert_ne).
  unfold bind. rewrite (get_obj_eq _ _ _ Ha1).
  rewrite (composite_init_eq _ _ _ (UnaryOpParameter arg op))
    by apply lookup_insert_eq.
  unfold ret, put, s1; simpl. by rewrite insert_insert_eq.
Qed.

(** A binary node whose left or right side is a number: the constant is
    created first, the node after it. *)
Lemma binary_num_par_eq fuel s x r ro op opstr :
  heap s !! r = Some ro -> (r < next s)%nat ->
  new_BinaryOpParameter fuel (PyNum x) (PyPar r) op opstr s
  = Ok (S (next s))
       (mkState
          (<[S (next s) :=
               composite_obj (BinaryOpParameter (next s) r op)
                 ("(" ++ py_str x ++ " " ++ opstr ++ " " ++ fullname ro
                      ++ ")")]>
             (<[next s := composite_obj (ConstantParameter x) (py_str x)]>
                (heap s)))
          (S (S (next s))) (log s)).
Proof.
  intros Hr Hlt. unfold new_BinaryOpParameter, wrapobj.
  unfold bind at 1. rewrite new_ConstantParameter_eq.
  set (s1 := mkState _ _ _).
  assert (Hk : heap s1 !! next s
               = Some (composite_obj (ConstantParameter x) (py_str x)))
    by apply lookup_insert_eq.
  assert (Hr1 : heap s1 !! r = Some ro)
    by (unfold s1; simpl; rewrite lookup_insert_ne by lia; exact Hr).
  pose proof (binary_node_eq fuel s1 (next s) r _ _ op opstr Hk Hr1) as Hb.
  unfold new_BinaryOpParameter, wrapobj in Hb.
  unfold bind at 1 in Hb. unfold ret at 1 in Hb.
  apply Hb; unfold s1; simpl; lia.
Qed.

Lemma binary_par_num_eq fuel s l lo x op opstr :
  heap s !! l = Some lo -> (l < next s)%nat ->
  new_BinaryOpParameter fuel (PyPar l) (PyNum x) op opstr s
  = Ok (S (next s))
       (mkState
          (<[S (next s) :=
               composite_obj (BinaryOpParameter l (next s) op)
                 ("(" ++ fullname lo ++ " " ++ opstr ++ " " ++ py_str x
                      ++ ")")]>
             (<[next s := composite_obj (ConstantParameter x) (py_str x)]>
                (heap s)))
          (S (S (next s))) (log s)).
Proof.
  intros Hl Hlt. unfold new_BinaryOpParameter, wrapobj.
  unfold bind at 1. unfold ret at 1. unfold bind at 1.
  rewrite new_ConstantParameter_eq.
  set (s1 := mkState _ _ _).
  assert (Hk : heap s1 !! next s
               = Some (composite_obj (ConstantParameter x) (py_str x)))
    by apply lookup_insert_eq.
  assert (Hl1 : heap s1 !! l = Some lo)
    by (unfold s1; simpl; rewrite lookup_insert_ne by lia; exact Hl).
  pose proof (binary_node_eq fuel s1 l (next s) _ _ op opstr Hl1 Hk) as Hb.
  unfold new_BinaryOpParameter, wrapobj in Hb.
  unfold bind at 1 in Hb. unfold ret at 1 in Hb. unfold bind at 1 in Hb.
  unfold ret at 1 in Hb.
  apply Hb; unfold s1; simpl; lia.
Qed.

(** X10.  For a parameter [p] and a number [x], the reflected
    subtraction [x - p] and the sum [(-p) + x] evaluate to the same
    number, [x - p.val], whenever [p.val] reads as a number: the forward
    and the reflected operator methods are wired alike. *)
Theorem reflected_and_forward_operators_agree
    (fuel : nat) (s : State) (p : addr) (op : ParameterObj) (x : Q) :
  heap s !! p = Some op -> (p < next s)%nat ->
  exists d e s',
    both_differences fuel p x s = Ok (d, e) s' /\
    forall m v,
      _get_val m (heap s') p = Val v ->
      eval (S (S m)) (heap s') d = Val (x - v)%Q /\
      eval (S (S m)) (heap s') e = Val (- v + x)%Q /\
      (x - v == - v + x)%Q.
Proof.
  intros Hp Hlt. unfold both_differences, __rsub__, __neg__, __add__,
    _make_binop_rfunc, _make_binop_func, _make_unop.
  unfold bind at 1. rewrite (binary_num_par_eq _ _ _ _ _ _ _ Hp Hlt).
  set (s1 := mkState _ _ _).
  assert (Hp1 : heap s1 !! p = Some op)
    by (unfold s1; simpl; rewrite !lookup_insert_ne by lia; exact Hp).
  unfold bind at 1.
  rewrite (new_UnaryOpParameter_eq _ _ _ _ _ _ Hp1)
    by (unfold s1; simpl; lia).
  set (s2 := mkState _ _ _).
  assert (Hu : heap s2 !! next s1
               = Some (composite_obj (UnaryOpParameter p Qopp)
                         ("-" ++ "(" ++ fullname op ++ ")")))
    by apply lookup_insert_eq.
  unfold bind at 1.
  rewrite (binary_par_num_eq _ _ _ _ _ _ _ Hu)
    by (unfold s2; simpl; lia).
  unfold ret. do 3 eexists. split; [reflexivity|].
  cbn [heap]. set (h' := <[_ := _]> _).
  assert (Hd : h' !! S (next s)
               = Some (composite_obj (BinaryOpParameter (next s) p Qminus)
                         ("(" ++ py_str x ++ " " ++ "-" ++ " " ++ fullname op
                              ++ ")"))).
  { unfold h', s2, s1; simpl. rewrite !lookup_insert_ne by lia.
    apply lookup_insert_eq. }
  assert (Hk1 : h' !! next s
                = Some (composite_obj (ConstantParameter x) (py_str x))).
  { unfold h', s2, s1; simpl. by rewrite !lookup_insert_ne by lia;
      rewrite lookup_insert_eq. }
  assert (Hp' : h' !! p = Some op).
  { unfold h', s2, s1; simpl. by rewrite !lookup_insert_ne by lia. }
  assert (Hu' : h' !! S (S (next s))
                = Some (composite_obj (UnaryOpParameter p Qopp)
                          ("-" ++ "(" ++ fullname op ++ ")"))).
  { unfold h', s2, s1; simpl. rewrite !lookup_insert_ne by lia.
    apply lookup_insert_eq. }
  assert (Hk2 : h' !! S (S (S (next s)))
                = Some (composite_obj (ConstantParameter x) (py_str x))).
  { unfold h', s2, s1; simpl. rewrite lookup_insert_ne by lia.
    apply lookup_insert_eq. }
  assert (He : exists oe, h' !! S (S (S (S (next s)))) = Some oe /\
                 cls oe = BinaryOpParameter (S (S (next s)))
                            (S (S (S (next s)))) Qplus).
  { eexists. split; [apply lookup_insert_eq|reflexivity]. }
  destruct He as (oe & He & Hce).
  intros m v Hv.
  pose proof (get_val_mono _ _ _ _ Hv) as Hv1.
  pose proof (get_val_mono _ _ _ _ Hv1) as Hv2.
  split; [|split].
  - unfold eval. rewrite (deref_eq _ _ _ Hd). cbn [rbind].
    cbn [composite_obj with_fullname cls constructed blank eval_with].
    rewrite get_val_S, (deref_eq _ _ _ Hk1). cbn [rbind].
    cbn [composite_obj with_fullname cls constructed blank is_composite
         eval_with].
    by rewrite Hv2.
  - unfold eval.
    change (S (next s2)) with (S (S (S (S (next s))))).
    rewrite (deref_eq _ _ _ He). cbn [rbind]. rewrite Hce.
    cbn [eval_with].
    rewrite get_val_S, (deref_eq _ _ _ Hu'). cbn [rbind].
    cbn [composite_obj with_fullname cls constructed blank is_composite
         eval_with].
    rewrite Hv1. cbn [rbind].
    rewrite get_val_S, (deref_eq _ _ _ Hk2). cbn [rbind].
    reflexivity.
  - ring.
Qed.

Lemma reflected_and_forward_operators_agree_witness :
  exists d e s',
    both_differences 3 0%nat 3
      (state_after (new_Parameter_default 1 "m" "p" 1) init_state)
    = Ok (d, e) s' /\
    forall m v,
      _get_val m (heap s') 0%nat = Val v ->
      eval (S (S m)) (heap s') d = Val (3 - v)%Q /\
      eval (S (S m)) (heap s') e = Val (- v + 3)%Q /\
      (3 - v == - v + 3)%Q.
Proof.
  apply (reflected_and_forward_operators_agree 3
           (state_after (new_Parameter_default 1 "m" "p" 1) init_state)
           0%nat (plain_obj "p" 1) 3).
  - vm_compute. reflexivity.
  - vm_compute. lia.
Defined.

(** ** [default_val] and [reset] *)

(** X11.  A successful numeric assignment [p.default_val = d] on a
    plain parameter does not change the value of a parameter that has no
    link, and a following [p.reset()] makes [p.val] read [d]. *)
Theorem reset_restores_assigned_default
    (n : nat) (s : State) (p : addr) (o : ParameterObj) (d : Q)
    (s1 : State) :
  heap s !! p = Some o ->
  cls o = PlainParameter ->
  _set_default_val (S n) p (PyNum d) s = Ok tt s1 ->
  (_link o = None -> _get_val (S n) (heap s1) p = Val (_val o)) /\
  exists s2,
    Parameter_reset (S n) p s1 = Ok tt s2 /\
    _get_val (S n) (heap s2) p = Val d.
Proof.
  intros H Hc Hset. rewrite (set_default_val_num_eq _ _ _ _ _ H) in Hset.
  destruct (Qltb d (_min o)); [discriminate|].
  destruct (Qgtb d (_max o)); [discriminate|].
  injection Hset as <-.
  set (o1 := with_default_val d (with_link None o)).
  split.
  - intros _. by rewrite (get_val_stored n _ p o1 (put_lookup _ _ _)).
  - eexists. split.
    + apply (reset_eq n _ p o1 (put_lookup _ _ _) Hc eq_refl).
    + rewrite put_put.
      rewrite (get_val_stored n _ p _ (put_lookup _ _ _));
        unfold o1; simpl; by destruct (_guessed o).
Qed.

Lemma reset_restores_assigned_default_witness :
  (_link p_5_0_10 = None ->
   _get_val 1 (heap (state_after (session 1 [OpDefaultVal 2]) init_state))
     0%nat = Val (_val p_5_0_10)) /\
  exists s2,
    Parameter_reset 1 0%nat
      (state_after (session 1 [OpDefaultVal 2]) init_state) = Ok tt s2 /\
    _get_val 1 (heap s2) 0%nat = Val 2%Q.
Proof.
  apply (reset_restores_assigned_default 0
           (state_after (new_Parameter_minmax 1 "m" "p" 5 0 10) init_state)
           0%nat p_5_0_10 2).
  - vm_compute. reflexivity.
  - reflexivity.
  - vm_compute. reflexivity.
Defined.

(** ** Iteration over composites *)

Lemma parts_loop_ok rec (h : store) self ps :
  forall acc,
    Forall (fun p => (p < self)%nat /\ is_Some (h !! p)) ps ->
    (forall p o, p ∈ ps -> h !! p = Some o -> is_composite (cls o) = true ->
                 exists l, rec p = Val l /\ Forall (fun x => (x < p)%nat) l) ->
    Forall (fun x => (x < self)%nat) acc ->
    exists l, parts_loop rec h self ps acc = Val l /\
              Forall (fun x => (x < self)%nat) l.
Proof.
  induction ps as [|p ps IH]; intros acc Hps Hrec Hacc; simpl.
  - eauto.
  - apply Forall_cons in Hps as [[Hlt [o Ho]] Hps].
    rewrite decide_False by lia. rewrite (deref_eq _ _ _ Ho). cbn [rbind].
    destruct (is_composite (cls o)) eqn:Hc.
    + destruct (Hrec p o ltac:(left) Ho Hc) as (sub & Hsub & Hsubs).
      rewrite Hsub. cbn [rbind]. apply IH; [exact Hps| |].
      * intros p' o' Hin. apply Hrec. by right.
      * apply Forall_app. split; [exact Hacc|].
        apply Forall_cons. split; [exact Hlt|].
        eapply Forall_impl; [exact Hsubs|]. simpl. lia.
    + apply IH; [exact Hps| |].
      * intros p' o' Hin. apply Hrec. by right.
      * apply Forall_app. split; [exact Hacc|]. by apply Forall_singleton.
Qed.

(** With the parts of every composite older than it, flattening ends
    within as many levels as the address of the composite, and yields
    older objects only. *)
Lemma get_parts_below (h : store) :
  parts_below h ->
  forall n a o, h !! a = Some o -> (a < n)%nat ->
    exists l, _get_parts n h a = Val l /\ Forall (fun x => (x < a)%nat) l.
Proof.
  intros Hwf. induction n as [|n IH]; intros a o Ha Hlt; [lia|].
  rewrite get_parts_S, (deref_eq _ _ _ Ha). cbn [rbind].
  apply parts_loop_ok; [by apply (Hwf a o)| |constructor].
  intros p op Hin Hp Hc. apply (IH p op Hp).
  specialize (Hwf a o Ha). rewrite Forall_forall in Hwf.
  destruct (Hwf p Hin). lia.
Qed.

Lemma iter_below (h : store) n a o :
  parts_below h -> h !! a = Some o -> (a < n)%nat ->
  exists l,
    __iter__ n h a = Val l /\
    (is_composite (cls o) = true -> Forall (fun x => (x < a)%nat) l) /\
    (is_composite (cls o) = false -> l = [a]).
Proof.
  intros Hwf Ha Hlt. unfold __iter__. rewrite (deref_eq _ _ _ Ha).
  cbn [rbind]. destruct (is_composite (cls o)).
  - destruct (get_parts_below h Hwf n a o Ha Hlt) as (l & Hl & Hall).
    exists l. by repeat split.
  - exists [a]. by repeat split.
Qed.

(** ** The shape of the store *)

Lemma same_shape_refl s : same_shape s s.
Proof. split; [done|]. intros a. by destruct (heap s !! a). Qed.

Lemma same_shape_trans s1 s2 s3 :
  same_shape s1 s2 -> same_shape s2 s3 -> same_shape s1 s3.
Proof.
  intros [Hn1 H1] [Hn2 H2]. split; [congruence|]. intros a.
  specialize (H1 a). specialize (H2 a).
  destruct (heap s1 !! a), (heap s2 !! a), (heap s3 !! a); try done.
  congruence.
Qed.

Lemma shape_ret {A} (a : A) : shape_kept (ret a).
Proof. intros s. apply same_shape_refl. Qed.

Lemma shape_raise {A} (e : exn) : shape_kept (@raise A e).
Proof. intros s. apply same_shape_refl. Qed.

Lemma shape_read {A} (r : store -> result A) : shape_kept (read r).
Proof.
  intros s. unfold read. destruct (r (heap s)); try done;
    apply same_shape_refl.
Qed.

Lemma shape_warn w : shape_kept (warn w).
Proof. intros s. split; [done|]. intros a. simpl. by destruct (heap s !! a). Qed.

Lemma shape_update q f :
  (forall o, cls (f o) = cls o) -> shape_kept (update q f).
Proof.
  intros Hf s. unfold update. destruct (heap s !! q) as [o|] eqn:Hq; [|done].
  split; [done|]. intros a. cbn [heap].
  destruct (decide (q = a)) as [->|Hne].
  - rewrite lookup_insert_eq, Hq. apply Hf.
  - rewrite lookup_insert_ne by done. by destruct (heap s !! a).
Qed.

Lemma shape_bind {A B} (m : M A) (k : A -> M B) :
  shape_kept m -> (forall a, shape_kept (k a)) -> shape_kept (bind m k).
Proof.
  intros Hm Hk s. unfold bind. specialize (Hm s).
  destruct (m s) as [a s1|e s1| |]; try done.
  specialize (Hk a s1).
  destruct (k a s1) as [b s2|e s2| |]; try done;
    by apply (same_shape_trans _ s1).
Qed.

Ltac shape_steps :=
  repeat first
    [ apply shape_ret
    | apply shape_raise
    | apply shape_read
    | apply shape_warn
    | apply shape_update; intros; reflexivity
    | apply shape_bind; [|intros ?]
    | match goal with
      | |- shape_kept (if ?b then _ else _) => destruct b
      | |- shape_kept (match ?x with _ => _ end) => destruct x
      end ].

Lemma shape_set_link fuel self v : shape_kept (_set_link fuel self v).
Proof. unfold _set_link, get_obj. shape_steps. Qed.

Lemma shape_set_val fuel self v : shape_kept (_set_val fuel self v).
Proof.
  destruct v; unfold _set_val, get_obj;
    try (apply shape_bind; [apply shape_set_link|intros _]); shape_steps.
Qed.

Lemma shape_set_default_val fuel self v :
  shape_kept (_set_default_val fuel self v).
Proof.
  destruct v; unfold _set_default_val, get_obj;
    try (apply shape_bind; [apply shape_set_link|intros _]); shape_steps.
Qed.

Lemma shape_set_limit fuel nm self v : shape_kept (_set_limit fuel nm self v).
Proof.
  unfold _set_limit, get_obj.
  apply shape_bind; [apply shape_read|intros o].
  destruct (Qltb _ _); [apply shape_raise|].
  destruct (Qgtb _ _); [apply shape_raise|].
  apply shape_bind;
    [|intros _; apply shape_update; intros; by destruct nm].
  destruct (initialized o); [|apply shape_ret].
  apply shape_bind; [|intros _].
  - destruct nm; try apply shape_ret.
    apply shape_bind; [apply shape_read|intros cur].
    destruct (Qgtb _ _); [|apply shape_ret].
    apply shape_bind; [apply shape_set_val|intros _]. shape_steps.
  - destruct nm; try apply shape_ret.
    apply shape_bind; [apply shape_read|intros cur].
    destruct (Qltb _ _); [|apply shape_ret].
    apply shape_bind; [apply shape_set_val|intros _]. shape_steps.
Qed.

Lemma shape_set_frozen self b : shape_kept (_set_frozen self b).
Proof. unfold _set_frozen, get_obj. shape_steps. Qed.

Lemma shape_reset fuel self : shape_kept (Parameter_reset fuel self).
Proof. unfold Parameter_reset, get_obj. shape_steps. Qed.

Lemma shape_when_given {A} (arg : option A) cond self k :
  (forall x, shape_kept (k x)) -> shape_kept (when_given arg cond self k).
Proof.
  intros Hk. destruct arg as [x|]; simpl; [|apply shape_ret].
  unfold get_obj. apply shape_bind; [apply shape_read|intros o].
  destruct (cond x o); [apply Hk|apply shape_ret].
Qed.

Lemma shape_set fuel self v mi ma fr dv dmi dma :
  shape_kept (Parameter_set fuel self v mi ma fr dv dmi dma).
Proof.
  unfold Parameter_set.
  repeat (apply shape_bind; [|intros _]);
    try (apply shape_when_given; intros; apply shape_set_limit).
  - destruct v; [apply shape_ret|apply shape_set_val ..].
  - destruct dv; [apply shape_ret|apply shape_set_default_val ..].
  - destruct mi; [apply shape_set_limit|apply shape_ret].
  - destruct ma; [apply shape_set_limit|apply shape_ret].
  - destruct dmi; [apply shape_set_limit|apply shape_ret].
  - destruct dma; [apply shape_set_limit|apply shape_ret].
  - destruct fr; [apply shape_set_frozen|apply shape_ret].
Qed.

Lemma shape_act fuel a : shape_kept (act fuel a).
Proof.
  destruct a as [self op| | | | | | |]; simpl;
    try first [apply shape_set_val | apply shape_set_default_val
              | apply shape_set_link | apply shape_set_frozen].
  destruct op; simpl;
    first [apply shape_set_val | apply shape_set_limit
          | apply shape_set_default_val | apply shape_set
          | apply shape_reset].
Qed.

Lemma shape_init fuel self mn nm val mi ma hmi hma un fr af hid al :
  shape_kept (Parameter__init__ fuel self mn nm val mi ma hmi hma un fr af
                hid al).
Proof.
  unfold Parameter__init__.
  repeat (apply shape_bind; [|intros _]);
    first [ apply shape_update; intros; reflexivity
          | apply shape_set_limit | apply shape_set_val
          | apply shape_set_default_val | apply shape_set_link
          | destruct af; apply shape_update; intros; reflexivity ].
Qed.

Lemma shape_composite_init fuel self nm :
  shape_kept (CompositeParameter__init__ fuel self nm).
Proof.
  unfold CompositeParameter__init__.
  apply shape_bind; [apply shape_init|intros _].
  apply shape_update. intros; reflexivity.
Qed.

(** ** Stores built by sessions *)

Lemma grows_refl s : store_ok s -> grows s s.
Proof. by split. Qed.

Lemma grows_trans s1 s2 s3 : grows s1 s2 -> grows s2 s3 -> grows s1 s3.
Proof. intros [_ H1] [Hok H2]. split; [exact Hok|]. auto. Qed.

Lemma store_ok_shape s s' : store_ok s -> same_shape s s' -> grows s s'.
Proof.
  intros [Hparts Hkeys] [Hnext Hsh].
  assert (Hpres : forall p, is_Some (heap s !! p) -> is_Some (heap s' !! p)).
  { intros p [o Ho]. specialize (Hsh p). rewrite Ho in Hsh.
    destruct (heap s' !! p); [eauto|done]. }
  split; [split|exact Hpres].
  - intros a o' Ha. specialize (Hsh a). rewrite Ha in Hsh.
    destruct (heap s !! a) as [o|] eqn:Ho; [|done]. rewrite Hsh.
    eapply Forall_impl; [exact (Hparts a o Ho)|].
    simpl. intros p [Hlt Hp]. split; [exact Hlt|by apply Hpres].
  - intros a [o' Ha]. rewrite Hnext. apply Hkeys.
    specialize (Hsh a). rewrite Ha in Hsh.
    destruct (heap s !! a); [eauto|done].
Qed.

Lemma store_ok_alloc s c :
  store_ok s ->
  Forall (fun p => is_Some (heap s !! p)) (parts_of c) ->
  grows s (mkState (<[next s := blank c]> (heap s)) (S (next s)) (log s)) /\
  is_Some ((<[next s := blank c]> (heap s)) !! next s).
Proof.
  intros [Hparts Hkeys] Hc.
  assert (Hpres : forall p, is_Some (heap s !! p) ->
                    is_Some (<[next s := blank c]> (heap s) !! p)).
  { intros p Hp. rewrite lookup_insert_is_Some. destruct (decide (next s = p));
      auto. }
  split; [split; [split|exact Hpres]|].
  - intros a o Ha. cbn [heap] in Ha.
    destruct (decide (next s = a)) as [<-|Hne].
    + rewrite lookup_insert_eq in Ha. injection Ha as <-. simpl.
      eapply Forall_impl; [exact Hc|]. simpl. intros p Hp.
      split; [by apply Hkeys|by apply Hpres].
    + rewrite lookup_insert_ne in Ha by done.
      eapply Forall_impl; [exact (Hparts a o Ha)|].
      simpl. intros p [Hlt Hp]. split; [exact Hlt|by apply Hpres].
  - intros a Ha. cbn [heap next] in *.
    apply lookup_insert_is_Some in Ha as [<-|[_ Ha]]; [lia|].
    specialize (Hkeys a Ha). lia.
  - rewrite lookup_insert_eq. eauto.
Qed.

(** A constructor call: allocate, then run a body that keeps the
    shape. *)
Lemma alloc_then_grows {A} c (body : addr -> M A) s :
  store_ok s ->
  Forall (fun p => is_Some (heap s !! p)) (parts_of c) ->
  (forall self, shape_kept (body self)) ->
  match bind (alloc c) body s with
  | Ok _ s' | Raise _ s' => grows s s' /\ is_Some (heap s' !! next s)
  | _ => True
  end.
Proof.
  intros Hok Hc Hbody. unfold bind, alloc.
  destruct (store_ok_alloc s c Hok Hc) as [Hg Hself].
  set (s1 := mkState _ _ _) in *.
  specialize (Hbody (next s) s1).
  destruct (body (next s) s1) as [a s'|e s'| |]; try done;
    (pose proof (store_ok_shape s1 s' (proj1 Hg) Hbody) as Hg';
     split; [by apply (grows_trans _ s1)|by apply Hg']).
Qed.

Lemma new_Parameter_grows fuel mn nm val mi ma hmi hma un fr af hid al s :
  store_ok s ->
  match new_Parameter fuel mn nm val mi ma hmi hma un fr af hid al s with
  | Ok _ s' | Raise _ s' => grows s s'
  | _ => True
  end.
Proof.
  intros Hok. unfold new_Parameter.
  pose proof (alloc_then_grows PlainParameter
                (fun self =>
                   (Parameter__init__ fuel self mn nm val mi ma hmi hma un fr
                      af hid al ;; ret self)%M) s Hok (Forall_nil_2 _)) as H.
  match type of H with
  | ?P -> _ => assert (HP : P); [|specialize (H HP)]
  end.
  { intros self. apply shape_bind; [apply shape_init|intros; apply shape_ret]. }
  destruct (bind _ _ s); try done; apply H.
Qed.

Lemma new_Constant_grows fuel x s :
  store_ok s ->
  exists s', new_ConstantParameter fuel x s = Ok (next s) s' /\
             grows s s' /\ is_Some (heap s' !! next s).
Proof.
  intros Hok.
  pose proof (alloc_then_grows (ConstantParameter (SherpaFloat x))
                (fun self =>
                   (CompositeParameter__init__ fuel self (py_str x) ;;
                    ret self)%M) s Hok (Forall_nil_2 _)) as H.
  match type of H with
  | ?P -> _ => assert (HP : P); [|specialize (H HP)]
  end.
  { intros self.
    apply shape_bind; [apply shape_composite_init|intros; apply shape_ret]. }
  change (bind _ _ s) with (new_ConstantParameter fuel x s) in H.
  rewrite new_ConstantParameter_eq in H |- *. eauto.
Qed.

Lemma wrapobj_grows fuel v s :
  store_ok s ->
  (forall a, v = PyPar a -> is_Some (heap s !! a)) ->
  match wrapobj fuel v s with
  | Ok a s' => grows s s' /\ is_Some (heap s' !! a)
  | Raise _ s' => grows s s'
  | _ => True
  end.
Proof.
  intros Hok Hv. destruct v as [|x|a]; simpl.
  - by apply grows_refl.
  - destruct (new_Constant_grows fuel x s Hok) as (s' & -> & Hg & Hs). done.
  - split; [by apply grows_refl|by apply Hv].
Qed.

Lemma check_ref_ok v s :
  match check_ref v s with
  | Ok _ s' => s' = s /\ forall a, v = PyPar a -> is_Some (heap s !! a)
  | Raise _ _ => False
  | _ => True
  end.
Proof.
  destruct v as [|x|a]; simpl; try (split; [done|]; intros; discriminate).
  unfold bind, get_obj, read, deref.
  destruct (heap s !! a) as [o|] eqn:Ha; [|done].
  split; [done|]. intros a' [= <-]. eauto.
Qed.

Lemma exec_grows fuel c s :
  store_ok s ->
  match exec fuel c s with
  | Ok _ s' | Raise _ s' => grows s s'
  | _ => True
  end.
Proof.
  intros Hok. destruct c as [mn nm val mi ma hmi hma un fr af hid al|x
                            |arg op opstr|lhs rhs op opstr|a];
    unfold exec; cbv beta iota.
  - unfold bind at 1. pose proof (check_ref_ok val s) as Hc.
    destruct (check_ref val s) as [[] s0|e s0| |]; try done.
    destruct Hc as [-> _]. unfold bind.
    pose proof (new_Parameter_grows fuel mn nm val mi ma hmi hma un fr af hid
                  al s Hok) as H.
    by destruct (new_Parameter _ _ _ _ _ _ _ _ _ _ _ _ _ s).
  - unfold bind.
    destruct (new_Constant_grows fuel x s Hok) as (s' & -> & Hg & _). done.
  - unfold bind at 1. pose proof (check_ref_ok (PyPar arg) s) as Hc.
    destruct (check_ref (PyPar arg) s) as [[] s0|e s0| |]; try done.
    destruct Hc as [-> Harg]. unfold bind at 1.
    pose proof (alloc_then_grows (UnaryOpParameter arg op)
                  (fun self =>
                     (a <- get_obj arg ;;
                      CompositeParameter__init__ fuel self
                        (opstr ++ "(" ++ fullname a ++ ")") ;;
                      ret self)%M) s Hok) as H.
    simpl in H. specialize (H (proj2 (Forall_singleton (fun p => is_Some (heap s !! p)) arg)
                         (Harg arg eq_refl))).
    match type of H with
    | ?P -> _ => assert (HP : P); [|specialize (H HP)]
    end.
    { intros self. apply shape_bind; [apply shape_read|intros o].
      apply shape_bind; [apply shape_composite_init|intros; apply shape_ret]. }
    change (bind (alloc (UnaryOpParameter arg op)) _ s)
      with (new_UnaryOpParameter fuel arg op opstr s) in H.
    destruct (new_UnaryOpParameter fuel arg op opstr s); try done; apply H.
  - unfold bind at 1. pose proof (check_ref_ok lhs s) as Hc.
    destruct (check_ref lhs s) as [[] s0|e s0| |]; try done.
    destruct Hc as [-> Hlhs]. unfold bind at 1.
    pose proof (check_ref_ok rhs s) as Hc.
    destruct (check_ref rhs s) as [[] s0|e s0| |]; try done.
    destruct Hc as [-> Hrhs]. unfold bind at 1.
    unfold new_BinaryOpParameter. unfold bind at 1.
    pose proof (wrapobj_grows fuel lhs s Hok Hlhs) as Hl.
    destruct (wrapobj fuel lhs s) as [l s1|e s1| |]; try done.
    destruct Hl as [Hg1 Hl]. unfold bind at 1.
    pose proof (wrapobj_grows fuel rhs s1 (proj1 Hg1)) as Hr.
    match type of Hr with
    | ?P -> _ => assert (HP : P); [|specialize (Hr HP)]
    end.
    { intros a ->. apply Hg1. by apply Hrhs. }
    destruct (wrapobj fuel rhs s1) as [r s2|e s2| |]; try done;
      [|by apply (grows_trans _ s1)].
    destruct Hr as [Hg2 Hr].
    pose proof (alloc_then_grows (BinaryOpParameter l r op)
                  (fun self =>
                     (lo <- get_obj l ;;
                      ro <- get_obj r ;;
                      CompositeParameter__init__ fuel self
                        ("(" ++ fullname lo ++ " " ++ opstr ++ " "
                             ++ fullname ro ++ ")") ;;
                      ret self)%M) s2 (proj1 Hg2)) as H.
    simpl in H.
    match type of H with
    | ?P -> _ => assert (HP0 : P); [|specialize (H HP0)]
    end.
    { apply Forall_cons. split; [by apply Hg2|by apply Forall_singleton]. }
    match type of H with
    | ?P -> _ => assert (HP' : P); [|specialize (H HP')]
    end.
    { intros self. apply shape_bind; [apply shape_read|intros lo].
      apply shape_bind; [apply shape_read|intros ro].
      apply shape_bind; [apply shape_composite_init|intros; apply shape_ret]. }
    match type of H with
    | match ?m s2 with _ => _ end => set (node := m) in *
    end.
    unfold bind. unfold ret at 1.
    destruct (node s2) as [a s3|e s3| |]; try done;
      apply (grows_trans _ s1); [done| |done|];
      apply (grows_trans _ s2); [done|apply H|done|apply H].
  - pose proof (shape_act fuel a s) as H.
    destruct (act fuel a s); try done; by apply store_ok_shape.
Qed.

Lemma run_exec_store_ok fuel cmds :
  keeps store_ok (run (exec fuel) cmds).
Proof.
  apply keeps_run. intros c s Hok.
  pose proof (exec_grows fuel c s Hok) as H.
  destruct (exec fuel c s); try done; apply H.
Qed.

Lemma init_state_ok : store_ok init_state.
Proof.
  split.
  - intros a o Ha. unfold init_state in Ha. cbn [heap] in Ha.
    by rewrite lookup_empty in Ha.
  - intros a [o Ha]. unfold init_state in Ha. cbn [heap] in Ha.
    by rewrite lookup_empty in Ha.
Qed.

(** X12.  In every state a session reaches from the empty one by
    constructor calls (parameters, constants, unary and binary
    expressions, so every operator) and actions on its parameters, also
    one that ended in an exception, iterating any object ends without
    the self-reference assertion: a plain parameter yields itself, a
    composite its flattened parts, all of them created before it, so
    never the composite itself. *)
Theorem iteration_ends_in_every_session
    (fuel : nat) (cmds : list command) (s' : State) (a : addr)
    (o : ParameterObj) (n : nat) :
  run (exec fuel) cmds init_state = Ok tt s' \/
  (exists e, run (exec fuel) cmds init_state = Raise e s') ->
  heap s' !! a = Some o ->
  (a < n)%nat ->
  exists l,
    __iter__ n (heap s') a = Val l /\
    (is_composite (cls o) = false -> l = [a]) /\
    (is_composite (cls o) = true ->
     (a ∉ l) /\ Forall (fun x => (x < a)%nat) l).
Proof.
  intros Hrun Ha Hlt.
  pose proof (run_exec_store_ok fuel cmds init_state init_state_ok) as Hok.
  assert (Hs' : store_ok s')
    by (destruct Hrun as [Hr|[e Hr]]; by rewrite Hr in Hok).
  destruct (iter_below (heap s') n a o (proj1 Hs') Ha Hlt)
    as (l & Hl & Hcomp & Hplain).
  exists l. split; [exact Hl|]. split; [exact Hplain|].
  intros Hc. specialize (Hcomp Hc). split; [|exact Hcomp].
  intros Hin. rewrite Forall_forall in Hcomp. specialize (Hcomp a Hin). lia.
Qed.

Lemma iteration_ends_in_every_session_witness :
  exists l,
    __iter__ 5
      (heap (state_after
               (run (exec 3)
                  [CParameter "m" "p" (PyNum 2) (- hugeval) hugeval
                     (- hugeval) hugeval "" false false false None;
                   CBinaryOp (PyNum 2) (PyPar 0%nat) Qmult "*";
                   CBinaryOp (PyPar 2%nat) (PyNum 3) Qplus "+";
                   CAct (ActLink 0%nat (PyPar 4%nat))])
               init_state)) 4%nat = Val l /\
    (is_composite (cls (composite_obj
                          (BinaryOpParameter 2%nat 3%nat Qplus)
                          "((2 * m.p) + 3)")) = false -> l = [4%nat]) /\
    (is_composite (cls (composite_obj
                          (BinaryOpParameter 2%nat 3%nat Qplus)
                          "((2 * m.p) + 3)")) = true ->
     (4%nat ∉ l) /\ Forall (fun x => (x < 4)%nat) l).
Proof.
  apply (iteration_ends_in_every_session 3
           [CParameter "m" "p" (PyNum 2) (- hugeval) hugeval (- hugeval)
              hugeval "" false false false None;
            CBinaryOp (PyNum 2) (PyPar 0%nat) Qmult "*";
            CBinaryOp (PyPar 2%nat) (PyNum 3) Qplus "+";
            CAct (ActLink 0%nat (PyPar 4%nat))]
           (state_after
              (run (exec 3)
                 [CParameter "m" "p" (PyNum 2) (- hugeval) hugeval
                    (- hugeval) hugeval "" false false false None;
                  CBinaryOp (PyNum 2) (PyPar 0%nat) Qmult "*";
                  CBinaryOp (PyPar 2%nat) (PyNum 3) Qplus "+";
                  CAct (ActLink 0%nat (PyPar 4%nat))])
              init_state)
           4%nat).
  - right. eexists. vm_compute. reflexivity.
  - vm_compute. reflexivity.
  - lia.
Defined.

(** ** Linking and unlinking *)

(** X13.  On a plain parameter without a link, a successful
    [p.link = e] followed by [p.unlink()] gives back the object exactly
    as it was: the link assignment stores nothing but the link, so the
    stored value, the default value and the limits survive the time the
    parameter was linked, and [p.val] reads the old value again. *)
Theorem link_then_unlink_restores_parameter
    (fuel n : nat) (s : State) (p e : addr) (o : ParameterObj) (s1 : State) :
  heap s !! p = Some o ->
  cls o = PlainParameter ->
  _link o = None ->
  _set_link fuel p (PyPar e) s = Ok tt s1 ->
  exists s2,
    unlink fuel p s1 = Ok tt s2 /\
    heap s2 !! p = Some o /\
    _get_val (S n) (heap s2) p = Val (_val o).
Proof.
  intros H Hc Hl Hset. destruct (set_link_ok _ _ _ _ _ _ H Hset) as [H1 _].
  eexists. split; [unfold unlink; by apply set_link_None_eq|].
  assert (Ho : with_link None (with_link (Some e) o) = o)
    by (destruct o; simpl in *; by subst).
  rewrite Ho. split; [apply put_lookup|].
  by rewrite (get_val_stored n _ p o (put_lookup _ _ _)).
Qed.

Lemma link_then_unlink_restores_parameter_witness :
  exists s2,
    unlink 3 1%nat linked_state = Ok tt s2 /\
    heap s2 !! 1%nat = Some (plain_obj_minmax "b" 1 0 20) /\
    _get_val 1 (heap s2) 1%nat = Val (_val (plain_obj_minmax "b" 1 0 20)).
Proof.
  apply (link_then_unlink_restores_parameter 3 0
           (state_after
              (new_Parameter_default 3 "m" "a" 2 ;;
               new_Parameter_minmax 3 "m" "b" 1 0 20 ;;
               __rsub__ 3 0%nat (PyNum 10))%M init_state)
           1%nat 3%nat (plain_obj_minmax "b" 1 0 20) linked_state).
  - vm_compute. reflexivity.
  - reflexivity.
  - reflexivity.
  - vm_compute. reflexivity.
Defined.

(** ** Cycles the link setter does not see *)

(** Linking [p] to an expression [q op k] over another plain parameter
    [q] and a constant [k]: both cycle checks pass and the link is
    stored. *)
Lemma set_link_to_binary f s p c q k o oc oq ok op x :
  heap s !! p = Some o -> _alwaysfrozen o = false ->
  heap s !! c = Some oc -> cls oc = BinaryOpParameter q k op ->
  _link oc = None ->
  heap s !! q = Some oq -> cls oq = PlainParameter ->
  heap s !! k = Some ok -> cls ok = ConstantParameter x ->
  p <> q -> p <> k -> p <> c -> q <> c -> k <> c ->
  _set_link (S (S f)) p (PyPar c) s = Ok tt (put s p (with_link (Some c) o)).
Proof.
  intros Hp Haf Hc Hcc Hlc Hq Hcq Hk Hck Hpq Hpk Hpc Hqc Hkc.
  assert (Hit : __iter__ (S (S f)) (heap s) c = Val [q; k]).
  { unfold __iter__. rewrite (deref_eq _ _ _ Hc). cbn [rbind]. rewrite Hcc.
    cbn [is_composite].
    rewrite get_parts_S, (deref_eq _ _ _ Hc). cbn [rbind]. rewrite Hcc.
    cbn [parts_of parts_loop].
    rewrite decide_False by done.
    rewrite (deref_eq _ _ _ Hq). cbn [rbind]. rewrite Hcq.
    cbn [is_composite]. rewrite decide_False by done.
    rewrite (deref_eq _ _ _ Hk). cbn [rbind]. rewrite Hck.
    cbn [is_composite].
    rewrite get_parts_S, (deref_eq _ _ _ Hk). cbn [rbind]. rewrite Hck.
    reflexivity. }
  assert (Hcont : contains (S (S f)) (heap s) p c = Val false).
  { unfold contains. rewrite Hit. cbn [rbind].
    rewrite bool_decide_eq_false_2; [done|]. intros Hin.
    apply elem_of_cons in Hin as [->|Hin]; [done|].
    by apply list_elem_of_singleton in Hin. }
  unfold _set_link, bind. rewrite (get_obj_eq _ _ _ Hp), Haf.
  unfold read. rewrite Hcont.
  rewrite link_walk_S, decide_False by done.
  rewrite Hcont. cbn [rbind]. rewrite (deref_eq _ _ _ Hc). cbn [rbind].
  rewrite Hlc, link_walk_None. unfold ret.
  by rewrite (update_eq _ _ _ _ Hp).
Qed.

(** X14.  The cycle checks of the link setter follow [.link] only from
    parameter to parameter and never look through the parts of a
    composite at their links.  So for two plain parameters [a] and [b]
    that are not always-frozen, [a.link = b + x] followed by
    [b.link = a + y] both succeed and leave both links set, and
    afterwards no depth of evaluation lets [a.val] or [b.val] return: each
    read asks for the other. *)
Theorem cycle_through_expressions_is_not_detected
    (f : nat) (s : State) (a b : addr) (oa ob : ParameterObj) (x y : Q) :
  heap s !! a = Some oa -> heap s !! b = Some ob ->
  a <> b -> (a < next s)%nat -> (b < next s)%nat ->
  cls oa = PlainParameter -> cls ob = PlainParameter ->
  _alwaysfrozen oa = false -> _alwaysfrozen ob = false ->
  exists c1 c2 s',
    cross_links (S (S f)) a b x y s = Ok (c1, c2) s' /\
    heap s' !! a = Some (with_link (Some c1) oa) /\
    heap s' !! b = Some (with_link (Some c2) ob) /\
    forall n,
      _get_val n (heap s') a = Diverge /\ _get_val n (heap s') b = Diverge.
Proof.
  intros Ha Hb Hab Han Hbn Hca Hcb Hfa Hfb.
  unfold cross_links, __add__, _make_binop_func.
  unfold bind at 1. rewrite (binary_par_num_eq _ _ _ _ _ _ _ Hb Hbn).
  set (k1 := next s). set (c1 := S k1).
  set (o1 := composite_obj (BinaryOpParameter b k1 Qplus) _).
  set (ok1 := composite_obj (ConstantParameter x) _).
  set (s1 := mkState _ _ _).
  assert (Ha1 : heap s1 !! a = Some oa)
    by (unfold s1, c1, k1; cbn [heap]; by rewrite !lookup_insert_ne by lia).
  assert (Hb1 : heap s1 !! b = Some ob)
    by (unfold s1, c1, k1; cbn [heap]; by rewrite !lookup_insert_ne by lia).
  assert (Hc1 : heap s1 !! c1 = Some o1) by apply lookup_insert_eq.
  assert (Hk1 : heap s1 !! k1 = Some ok1).
  { unfold s1, c1, k1; cbn [heap]. rewrite lookup_insert_ne by lia.
    apply lookup_insert_eq. }
  cbv beta iota. unfold bind at 1.
  rewrite (set_link_to_binary f s1 a c1 b k1 oa o1 ob ok1 Qplus x);
    try done; try (unfold c1, k1; lia).
  set (oa' := with_link (Some c1) oa).
  set (s2 := put s1 a oa').
  assert (Ha2 : heap s2 !! a = Some oa') by apply put_lookup.
  cbv beta iota. unfold bind at 1.
  rewrite (binary_par_num_eq _ s2 a oa' y Qplus "+" Ha2)
    by (unfold s2, s1; cbn [next put]; lia).
  set (k2 := next s2). set (c2 := S k2).
  set (o2 := composite_obj (BinaryOpParameter a k2 Qplus) _).
  set (ok2 := composite_obj (ConstantParameter y) _).
  set (s3 := mkState _ _ _).
  assert (Hk2v : k2 = S (S (next s))) by reflexivity.
  assert (Hc2v : c2 = S (S (S (next s)))) by reflexivity.
  assert (Ha3 : heap s3 !! a = Some oa')
    by (unfold s3; cbn [heap]; by rewrite !lookup_insert_ne by lia).
  assert (Hb3 : heap s3 !! b = Some ob).
  { unfold s3, s2, put; cbn [heap]. rewrite !lookup_insert_ne by lia.
    exact Hb1. }
  assert (Hc13 : heap s3 !! c1 = Some o1).
  { unfold s3, s2, put; cbn [heap].
    rewrite !lookup_insert_ne by (unfold c1; lia). exact Hc1. }
  assert (Hc3 : heap s3 !! c2 = Some o2) by apply lookup_insert_eq.
  assert (Hk3 : heap s3 !! k2 = Some ok2).
  { unfold s3; cbn [heap]. rewrite lookup_insert_ne by lia.
    apply lookup_insert_eq. }
  cbv beta iota. unfold bind at 1.
  rewrite (set_link_to_binary f s3 b c2 a k2 ob o2 oa' ok2 Qplus y);
    try done; try lia.
  cbv beta iota. unfold bind, ret. do 3 eexists. split; [reflexivity|].
  set (h4 := heap (put s3 b (with_link (Some c2) ob))).
  assert (Ha4 : h4 !! a = Some oa')
    by (unfold h4, put; cbn [heap]; by rewrite lookup_insert_ne).
  assert (Hb4 : h4 !! b = Some (with_link (Some c2) ob)) by apply put_lookup.
  assert (Hc14 : h4 !! c1 = Some o1)
    by (unfold h4, put; cbn [heap]; rewrite lookup_insert_ne by (unfold c1; lia);
        exact Hc13).
  assert (Hc24 : h4 !! c2 = Some o2)
    by (unfold h4, put; cbn [heap]; rewrite lookup_insert_ne by lia;
        exact Hc3).
  split; [exact Ha4|]. split; [exact Hb4|].
  assert (Hall : forall n,
             _get_val n h4 a = Diverge /\ _get_val n h4 b = Diverge /\
             _get_val n h4 c1 = Diverge /\ _get_val n h4 c2 = Diverge).
  { induction n as [|n (IHa & IHb & IHc1 & IHc2)]; [done|].
    rewrite !get_val_S.
    rewrite (deref_eq _ _ _ Ha4), (deref_eq _ _ _ Hb4),
      (deref_eq _ _ _ Hc14), (deref_eq _ _ _ Hc24).
    cbn [rbind]. unfold oa', o1, o2. obj_simpl.
    cbn [composite_obj with_fullname cls constructed blank _link].
    rewrite Hca, Hcb. cbn [is_composite eval_with].
    by rewrite IHa, IHb, IHc1, IHc2. }
  intros n. destruct (Hall n) as (? & ? & _). done.
Qed.

Lemma cycle_through_expressions_is_not_detected_witness :
  exists c1 c2 s',
    cross_links 2 0%nat 1%nat 1 1
      (state_after (p_and_q 1) init_state) = Ok (c1, c2) s' /\
    heap s' !! 0%nat = Some (with_link (Some c1) (plain_obj "p" 2)) /\
    heap s' !! 1%nat = Some (with_link (Some c2) (plain_obj "q" 4)) /\
    forall n,
      _get_val n (heap s') 0%nat = Diverge /\
      _get_val n (heap s') 1%nat = Diverge.
Proof.
  apply (cycle_through_expressions_is_not_detected 0
           (state_after (p_and_q 1) init_state) 0%nat 1%nat
           (plain_obj "p" 2) (plain_obj "q" 4) 1 1).
  - vm_compute. reflexivity.
  - vm_compute. reflexivity.
  - discriminate.
  - vm_compute. lia.
  - vm_compute. lia.
  - reflexivity.
  - reflexivity.
  - reflexivity.
  - reflexivity.
Defined.

(** ** Reads through a link *)



(** ** Warnings *)

Lemma quiet_update L a f : keeps (fun s => log s = L) (update a f).
Proof. intros s H. unfold update. by destruct (heap s !! a). Qed.

Ltac quiet_steps :=
  repeat first
    [ apply keeps_ret
    | apply keeps_raise
    | apply keeps_read
    | apply quiet_update
    | apply keeps_bind; [|intros ?]
    | match goal with
      | |- keeps _ (if ?b then _ else _) => destruct b
      | |- keeps _ (match ?x with _ => _ end) => destruct x
      end ].

Lemma quiet_set_link L fuel self v :
  keeps (fun s => log s = L) (_set_link fuel self v).
Proof. unfold _set_link, get_obj. quiet_steps. Qed.

Lemma quiet_set_val L fuel self v :
  keeps (fun s => log s = L) (_set_val fuel self v).
Proof.
  destruct v; unfold _set_val, get_obj;
    try (apply keeps_bind; [apply quiet_set_link|intros _]); quiet_steps.
Qed.

Lemma quiet_set_default_val L fuel self v :
  keeps (fun s => log s = L) (_set_default_val fuel self v).
Proof.
  destruct v; unfold _set_default_val, get_obj;
    try (apply keeps_bind; [apply quiet_set_link|intros _]); quiet_steps.
Qed.

Lemma quiet_default_limit L fuel nm self v :
  nm = L_default_min \/ nm = L_default_max ->
  keeps (fun s => log s = L) (_set_limit fuel nm self v).
Proof.
  intros [-> | ->]; unfold _set_limit, get_obj; cbv beta iota zeta;
    apply keeps_bind; try apply keeps_read; intros o;
    destruct (Qltb _ _); try apply keeps_raise;
    destruct (Qgtb _ _); try apply keeps_raise;
    (apply keeps_bind; [|intros _; apply quiet_update]);
    destruct (initialized o); quiet_steps.
Qed.

Lemma quiet_set_frozen L self b :
  keeps (fun s => log s = L) (_set_frozen self b).
Proof. unfold _set_frozen, get_obj. quiet_steps. Qed.

Lemma quiet_reset L fuel self :
  keeps (fun s => log s = L) (Parameter_reset fuel self).
Proof. unfold Parameter_reset, get_obj. quiet_steps. Qed.

Lemma quiet_act L fuel a :
  leaves_limits a = true -> keeps (fun s => log s = L) (act fuel a).
Proof.
  destruct a as [self op| | | | | | |]; simpl; intros Hq;
    try first [apply quiet_set_val | apply quiet_set_default_val
              | apply quiet_set_link | apply quiet_set_frozen].
  destruct op; try discriminate; simpl;
    first [apply quiet_set_val | apply quiet_set_default_val
          | apply quiet_reset
          | apply quiet_default_limit; by auto].
Qed.

(** X16.  Only an assignment to [min] or [max] (alone or within [set])
    logs a warning: after any number of assignments to [val],
    [default_val], [default_min], [default_max], [link] and [frozen], of
    [unlink], [freeze], [thaw] and [reset], on any parameters and whether
    they succeed or raise, the log is what it was. *)
Theorem only_limit_narrowing_warns
    (fuel : nat) (acts : list action) (s s' : State) :
  forallb leaves_limits acts = true ->
  run (act fuel) acts s = Ok tt s' \/
  (exists e, run (act fuel) acts s = Raise e s') ->
  log s' = log s.
Proof.
  intros Hq Hrun.
  assert (Hk : keeps (fun s0 => log s0 = log s) (run (act fuel) acts)).
  { clear Hrun. induction acts as [|a rest IH]; simpl.
    - apply keeps_ret.
    - simpl in Hq. apply andb_prop in Hq as [Ha Hrest].
      apply keeps_bind; [by apply quiet_act|intros _; by apply IH]. }
  specialize (Hk s eq_refl).
  destruct Hrun as [Hr|[e Hr]]; by rewrite Hr in Hk.
Qed.

Lemma only_limit_narrowing_warns_witness :
  log (state_after
         (run (act 3) [ActOp 1%nat (OpVal 4); ActOp 1%nat (OpDefaultMax 2);
                       ActOp 1%nat OpReset; ActLink 1%nat (PyPar 0%nat);
                       ActThaw 1%nat])
         linked_state) = log linked_state.
Proof.
  apply (only_limit_narrowing_warns 3
           [ActOp 1%nat (OpVal 4); ActOp 1%nat (OpDefaultMax 2);
            ActOp 1%nat OpReset; ActLink 1%nat (PyPar 0%nat);
            ActThaw 1%nat] linked_state).
  - reflexivity.
  - left. vm_compute. reflexivity.
Defined.
